(** * Inventory system: a shallow embedding of [inventory_system.py]

    The development follows the Python module top to bottom:

    - [Py]: the Python values the program handles, with the handful of
      dynamic operations the methods perform on them ([isinstance],
      truthiness, [+], [-], [<], [==], [in], [d.get], [d[k]]);
    - [Json]: the text codec behind [json.dump(..., indent=4)] and
      [json.load];
    - [Inventory]: the class [InventoryManager], one definition per method,
      written in a small state-and-exception monad over the manager object
      and the outside world (files, console, clock);
    - the properties of the store.

    Scope of the model.  Python [int] is unbounded and is modelled by
    [Z]; its decimal text is taken without the interpreter's configurable
    limit on the number of digits.  A Python [str] is modelled by
    [string], a sequence of characters with code points below 256, so
    text beyond Latin-1 and surrogate code points are not represented.  A
    [dict] is an association list in insertion order.  Floating point
    numbers are not modelled: a JSON document that holds one is recognised
    by the decoder and classed apart, and a call that would load it is
    [Unmodelled].  The lines printed are kept as structured messages
    rather than formatted text. *)

From Stdlib Require Import ZArith List String Ascii Bool Lia.
From Stdlib Require Import DecimalString DecimalZ DecimalPos DecimalFacts.
Import ListNotations.

Local Open Scope string_scope.
Local Open Scope Z_scope.

Set Warnings "-register-all".

(* ================================================================== *)
(** * Python values *)
(* ================================================================== *)

Module Py.

(** The objects that reach the methods: what [json.load] can build, which
    is also what callers pass as [item] and [qty]. *)
Inductive pyval : Type :=
| PNone
| PBool (b : bool)
| PInt (z : Z)
| PStr (s : string)
| PList (l : list pyval)
| PDict (d : list (string * pyval)).

(** A [dict] with [str] keys, in insertion order. *)
Definition dict := list (string * pyval).

(** The exceptions the program can meet. *)
Inductive exn : Type :=
| AttributeError
| TypeError
| KeyError
| FileNotFoundError
| JSONDecodeError
| OSError.

(** [isinstance(v, str)] *)
Definition isinstance_str (v : pyval) : bool :=
  match v with PStr _ => true | _ => false end.

(** [isinstance(v, int)]: [bool] is a subclass of [int]. *)
Definition isinstance_int (v : pyval) : bool :=
  match v with PInt _ | PBool _ => true | _ => false end.

(** The integer an [int] instance stands for in arithmetic and comparisons
    ([True] is 1, [False] is 0). *)
Definition as_int (v : pyval) : option Z :=
  match v with
  | PInt z => Some z
  | PBool true => Some 1
  | PBool false => Some 0
  | _ => None
  end.

(** [bool(v)] *)
Definition truthy (v : pyval) : bool :=
  match v with
  | PNone => false
  | PBool b => b
  | PInt z => negb (z =? 0)
  | PStr s => negb (s =? "")%string
  | PList l => match l with [] => false | _ => true end
  | PDict d => match d with [] => false | _ => true end
  end.

(** [v + q], [v - q] and [v < q] where [q] is an [int]: defined on [int]
    instances, [TypeError] on [None], [str], [list] and [dict]. *)
Definition add_int (v : pyval) (q : Z) : exn + pyval :=
  match as_int v with
  | Some z => inr (PInt (z + q))
  | None => inl TypeError
  end.

Definition sub_int (v : pyval) (q : Z) : exn + pyval :=
  match as_int v with
  | Some z => inr (PInt (z - q))
  | None => inl TypeError
  end.

Definition lt_int (v : pyval) (q : Z) : exn + bool :=
  match as_int v with
  | Some z => inr (z <? q)
  | None => inl TypeError
  end.

(** [v == 0]: never raises; only a number can be equal to 0. *)
Definition eq_zero (v : pyval) : bool :=
  match as_int v with
  | Some z => z =? 0
  | None => false
  end.

(** ** Dictionaries *)

(** [d.get(k)] as an option. *)
Fixpoint dict_lookup (d : dict) (k : string) : option pyval :=
  match d with
  | [] => None
  | (k', v) :: d' => if (k' =? k)%string then Some v else dict_lookup d' k
  end.

(** [k in d] *)
Definition dict_mem (d : dict) (k : string) : bool :=
  match dict_lookup d k with Some _ => true | None => false end.

(** [d[k] = v]: a present key keeps its place, a new key goes last. *)
Fixpoint dict_set (d : dict) (k : string) (v : pyval) : dict :=
  match d with
  | [] => [(k, v)]
  | (k', v') :: d' =>
      if (k' =? k)%string then (k', v) :: d' else (k', v') :: dict_set d' k v
  end.

(** [del d[k]] *)
Fixpoint dict_del (d : dict) (k : string) : dict :=
  match d with
  | [] => []
  | (k', v') :: d' =>
      if (k' =? k)%string then dict_del d' k else (k', v') :: dict_del d' k
  end.

(** [list(d)] *)
Definition dict_keys (d : dict) : list string := map fst d.

(** [dict(pairs)]: later pairs overwrite earlier ones in place. *)
Definition dict_of_pairs (ps : list (string * pyval)) : dict :=
  fold_left (fun d kv => dict_set d (fst kv) (snd kv)) ps [].

(** ** Operations on an object that is expected to be a dictionary *)

(** [t in s] for two strings: [t] occurs in [s]. *)
Fixpoint is_prefix (t s : string) : bool :=
  match t, s with
  | EmptyString, _ => true
  | String a t', String b s' => Ascii.eqb a b && is_prefix t' s'
  | String _ _, EmptyString => false
  end.

Fixpoint occurs_in (t s : string) : bool :=
  is_prefix t s ||
  match s with
  | EmptyString => false
  | String _ s' => occurs_in t s'
  end.

(** [k in o] for a string [k]: key membership on a [dict], element
    membership on a [list], substring test on a [str]; the other objects
    are not containers. *)
Definition contains (o : pyval) (k : string) : exn + bool :=
  match o with
  | PDict d => inr (dict_mem d k)
  | PList l =>
      inr (existsb (fun e => match e with
                             | PStr s => (s =? k)%string
                             | _ => false
                             end) l)
  | PStr s => inr (occurs_in k s)
  | PNone | PBool _ | PInt _ => inl TypeError
  end.

(** [o[k]] for a string [k]: [KeyError] on a [dict] without [k]; a [list]
    or a [str] cannot be indexed by a string, the others not at all. *)
Definition getitem (o : pyval) (k : string) : exn + pyval :=
  match o with
  | PDict d =>
      match dict_lookup d k with
      | Some v => inr v
      | None => inl KeyError
      end
  | _ => inl TypeError
  end.

(** [o[k] = v] for a string [k]: [str] and the scalars do not support item
    assignment and a [list] wants an integer index. *)
Definition setitem (o : pyval) (k : string) (v : pyval) : exn + pyval :=
  match o with
  | PDict d => inr (PDict (dict_set d k v))
  | _ => inl TypeError
  end.

(** [del o[k]] for a string [k]. *)
Definition delitem (o : pyval) (k : string) : exn + pyval :=
  match o with
  | PDict d =>
      if dict_mem d k then inr (PDict (dict_del d k)) else inl KeyError
  | _ => inl TypeError
  end.

(** [o.get(k, default)]: only a [dict] has the method; a [list] or a
    [dict] given as key is unhashable, and no other object equals a
    string key. *)
Definition get_method (o : pyval) (k : pyval) (default : pyval)
  : exn + pyval :=
  match o with
  | PDict d =>
      match k with
      | PStr s =>
          match dict_lookup d s with
          | Some v => inr v
          | None => inr default
          end
      | PList _ | PDict _ => inl TypeError
      | PNone | PBool _ | PInt _ => inr default
      end
  | _ => inl AttributeError
  end.

(** [o.items()] *)
Definition items_method (o : pyval) : exn + list (string * pyval) :=
  match o with
  | PDict d => inr d
  | _ => inl AttributeError
  end.

(** ** Well-formed values and their size *)

(** No string occurs twice in [ks]. *)
Fixpoint distinct (ks : list string) : bool :=
  match ks with
  | [] => true
  | k :: ks' => negb (existsb (String.eqb k) ks') && distinct ks'
  end.

(** The objects [json.dump] can be handed: dictionaries have no
    duplicate key, at any depth. *)
Fixpoint well_formed (v : pyval) : bool :=
  match v with
  | PList l => forallb well_formed l
  | PDict d =>
      distinct (map fst d) && forallb (fun kv => well_formed (snd kv)) d
  | _ => true
  end.

(** The number of nodes of a value, each element and member counted once
    more for its place in the container; the decoder needs that much
    fuel at most. *)
Fixpoint size (v : pyval) : nat :=
  match v with
  | PList l => S (list_sum (map (fun x => S (size x)) l))
  | PDict d => S (list_sum (map (fun kv => S (size (snd kv))) d))
  | _ => 1
  end.

(** The part of the size of a list, and of a dictionary, that its
    elements and members account for. *)
Definition elements_size (l : list pyval) : nat :=
  list_sum (map (fun x => S (size x)) l).

Definition members_size (d : dict) : nat :=
  list_sum (map (fun kv => S (size (snd kv))) d).

End Py.
Export Py.

(* ================================================================== *)
(** * The JSON codec *)
(* ================================================================== *)

Module Json.

Definition dquote : ascii := "034"%char.
Definition bslash : ascii := "\"%char.
Definition newline : ascii := "010"%char.

(** ** Encoding: [json.dump(obj, f, indent=4)]

    The defaults apply: [ensure_ascii=True], separators ["," ] and
    [": "], keys in dictionary order. *)

Definition hex_digit (n : N) : ascii :=
  if (n <? 10)%N then ascii_of_N (48 + n) else ascii_of_N (87 + n).

(** The replacement of one character inside a string literal: the short
    escapes, the printable ASCII characters as they are, [\u00xx] for the
    rest. *)
Definition escape_char (c : ascii) : string :=
  if (c =? dquote)%char then String bslash (String dquote "")
  else if (c =? bslash)%char then String bslash (String bslash "")
  else if (c =? newline)%char then String bslash "n"
  else if (c =? "013")%char then String bslash "r"
  else if (c =? "009")%char then String bslash "t"
  else if (c =? "008")%char then String bslash "b"
  else if (c =? "012")%char then String bslash "f"
  else if ((32 <=? N_of_ascii c) && (N_of_ascii c <=? 126))%N
       then String c ""
  else String bslash
         (String "u" (String "0" (String "0"
           (String (hex_digit (N_of_ascii c / 16))
             (String (hex_digit (N_of_ascii c mod 16)) ""))))).

Fixpoint escape (s : string) : string :=
  match s with
  | EmptyString => ""
  | String c r => escape_char c ++ escape r
  end.

Definition encode_str (s : string) : string :=
  String dquote (escape s ++ String dquote "").

(** [int.__repr__]: decimal, a minus sign for negatives. *)
Definition encode_int (z : Z) : string :=
  NilEmpty.string_of_int (Z.to_int z).

Fixpoint spaces (n : nat) : string :=
  match n with
  | O => ""
  | S n' => "    " ++ spaces n'
  end.

(** A line break followed by the indentation of nesting level [lvl]. *)
Definition newline_indent (lvl : nat) : string :=
  String newline (spaces lvl).

(** The members of an object after the first one, each preceded by the
    item separator. *)
Fixpoint encode_more_members (enc : pyval -> string) (sep : string)
    (d : dict) : string :=
  match d with
  | [] => ""
  | (k, v) :: d' =>
      sep ++ encode_str k ++ ": " ++ enc v ++ encode_more_members enc sep d'
  end.

Fixpoint encode_more_elements (enc : pyval -> string) (sep : string)
    (l : list pyval) : string :=
  match l with
  | [] => ""
  | v :: l' => sep ++ enc v ++ encode_more_elements enc sep l'
  end.

(** The text of [v] when it sits at nesting level [lvl]. *)
Fixpoint encode (lvl : nat) (v : pyval) : string :=
  match v with
  | PNone => "null"
  | PBool true => "true"
  | PBool false => "false"
  | PInt z => encode_int z
  | PStr s => encode_str s
  | PList [] => "[]"
  | PList (x :: l) =>
      "[" ++ newline_indent (S lvl) ++ encode (S lvl) x
      ++ encode_more_elements (encode (S lvl))
           ("," ++ newline_indent (S lvl)) l
      ++ newline_indent lvl ++ "]"
  | PDict [] => "{}"
  | PDict ((k, x) :: d) =>
      "{" ++ newline_indent (S lvl) ++ encode_str k ++ ": "
      ++ encode (S lvl) x
      ++ encode_more_members (encode (S lvl))
           ("," ++ newline_indent (S lvl)) d
      ++ newline_indent lvl ++ "}"
  end.

Definition json_dumps (v : pyval) : string := encode 0 v.

(** ** Decoding: [json.load(f)]

    The decoder reads one value between optional white space and wants
    nothing after it.  A document is [Malformed] when the text is not JSON
    ([JSONDecodeError]).  A well-formed document that holds a number with a
    fraction or an exponent, [NaN], an infinity, or an escape [\uXXXX] of
    a code point above 255 is [Unsupported]: it decodes in Python, to a
    value this development has no counterpart for. *)

Inductive decoded : Type :=
| Decoded (v : pyval)
| Malformed
| Unsupported.

Definition is_ws (c : ascii) : bool :=
  ((c =? " ") || (c =? "009") || (c =? "010") || (c =? "013"))%char.

Fixpoint skip_ws (s : string) : string :=
  match s with
  | String c r => if is_ws c then skip_ws r else s
  | EmptyString => s
  end.

Definition is_digit (c : ascii) : bool :=
  ((48 <=? N_of_ascii c) && (N_of_ascii c <=? 57))%N.

Definition hex_value (c : ascii) : option N :=
  let n := N_of_ascii c in
  if ((48 <=? n) && (n <=? 57))%N then Some (n - 48)%N
  else if ((97 <=? n) && (n <=? 102))%N then Some (n - 87)%N
  else if ((65 <=? n) && (n <=? 70))%N then Some (n - 55)%N
  else None.

Definition hex4 (a b c d : ascii) : option N :=
  match hex_value a, hex_value b, hex_value c, hex_value d with
  | Some x, Some y, Some z, Some t =>
      Some (4096 * x + 256 * y + 16 * z + t)%N
  | _, _, _, _ => None
  end.

(** The character a short escape stands for. *)
Definition unescape (e : ascii) : option ascii :=
  if (e =? dquote)%char then Some dquote
  else if (e =? bslash)%char then Some bslash
  else if (e =? "/")%char then Some "/"%char
  else if (e =? "b")%char then Some "008"%char
  else if (e =? "f")%char then Some "012"%char
  else if (e =? "n")%char then Some newline
  else if (e =? "r")%char then Some "013"%char
  else if (e =? "t")%char then Some "009"%char
  else None.

(** What a scan yields: the value read, whether something unsupported was
    met on the way, and the text that follows. *)
Definition scanned (A : Type) : Type := option (A * bool * string).

Definition push (c : ascii) (x : bool) (r : scanned string)
  : scanned string :=
  match r with
  | Some (t, y, rest) => Some (String c t, x || y, rest)
  | None => None
  end.

(** The body of a string literal, from just after the opening quote to the
    closing one.  A raw control character is refused. *)
Fixpoint scanstring (s : string) : scanned string :=
  match s with
  | EmptyString => None
  | String c r =>
      if (c =? dquote)%char then Some ("", false, r)
      else if (c =? bslash)%char then
        match r with
        | EmptyString => None
        | String e r' =>
            if (e =? "u")%char then
              match r' with
              | String h1 (String h2 (String h3 (String h4 r''))) =>
                  match hex4 h1 h2 h3 h4 with
                  | Some n =>
                      if (n <? 256)%N
                      then push (ascii_of_N n) false (scanstring r'')
                      else push "?"%char true (scanstring r'')
                  | None => None
                  end
              | _ => None
              end
            else
              match unescape e with
              | Some ch => push ch false (scanstring r')
              | None => None
              end
        end
      else if (N_of_ascii c <? 32)%N then None
      else push c false (scanstring r)
  end.

(** The longest run of digits at the head of [s], and what follows. *)
Fixpoint scan_digits (s : string) : string * string :=
  match s with
  | String c r =>
      if is_digit c
      then let (ds, rest) := scan_digits r in (String c ds, rest)
      else ("", s)
  | EmptyString => ("", "")
  end.

(** [int(ds)] for a run of digits. *)
Definition int_of_digits (ds : string) : Z :=
  match NilEmpty.uint_of_string ds with
  | Some u => Z.of_uint u
  | None => 0
  end.

Inductive number : Type :=
| NInt (z : Z)
| NFloat.

(** [.digits], if present. *)
Definition scan_frac (s : string) : bool * string :=
  match s with
  | String "." r =>
      match scan_digits r with
      | (EmptyString, _) => (false, s)
      | (_, rest) => (true, rest)
      end
  | _ => (false, s)
  end.

(** [e] or [E], an optional sign and digits, if present. *)
Definition scan_exp (s : string) : bool * string :=
  match s with
  | String e r =>
      if ((e =? "e") || (e =? "E"))%char then
        let r1 := match r with
                  | String sg r' =>
                      if ((sg =? "+") || (sg =? "-"))%char then r' else r
                  | EmptyString => r
                  end in
        match scan_digits r1 with
        | (EmptyString, _) => (false, s)
        | (_, rest) => (true, rest)
        end
      else (false, s)
  | EmptyString => (false, s)
  end.

(** The integer part of a number token: [0], or a run of digits that does
    not start with [0]. *)
Definition scan_int_part (s : string) : option (string * string) :=
  match s with
  | String c r =>
      if is_digit c then
        Some (if (c =? "0")%char then ("0", r) else scan_digits s)
      else None
  | EmptyString => None
  end.

(** A number token: an optional minus sign, the integer part, then an
    optional fraction and an optional exponent.  With a fraction or an
    exponent it is a float. *)
Definition scan_number (s : string) : option (number * string) :=
  let (neg, s1) := match s with
                   | String "-" r => (true, r)
                   | _ => (false, s)
                   end in
  match scan_int_part s1 with
  | Some (ds, rest) =>
      let (frac, rest1) := scan_frac rest in
      let (exp, rest2) := scan_exp rest1 in
      if frac || exp then Some (NFloat, rest2)
      else Some (NInt (if neg then - int_of_digits ds
                       else int_of_digits ds), rest)
  | None => None
  end.

(** [s] without its prefix [lit], when it has it. *)
Fixpoint strip_prefix (lit s : string) : option string :=
  match lit, s with
  | EmptyString, _ => Some s
  | String a lit', String b s' =>
      if (a =? b)%char then strip_prefix lit' s' else None
  | String _ _, EmptyString => None
  end.

(** The three float constants the decoder accepts by name. *)
Definition scan_constant (s : string) : scanned pyval :=
  match strip_prefix "NaN" s with
  | Some rest => Some (PNone, true, rest)
  | None =>
      match strip_prefix "Infinity" s with
      | Some rest => Some (PNone, true, rest)
      | None =>
          match strip_prefix "-Infinity" s with
          | Some rest => Some (PNone, true, rest)
          | None => None
          end
      end
  end.

(** A value that is neither a string, an object nor an array. *)
Definition scan_atom (s : string) : scanned pyval :=
  match strip_prefix "null" s with
  | Some rest => Some (PNone, false, rest)
  | None =>
  match strip_prefix "true" s with
  | Some rest => Some (PBool true, false, rest)
  | None =>
  match strip_prefix "false" s with
  | Some rest => Some (PBool false, false, rest)
  | None =>
  match scan_number s with
  | Some (NInt z, rest) => Some (PInt z, false, rest)
  | Some (NFloat, rest) => Some (PNone, true, rest)
  | None => scan_constant s
  end end end end.

(** One value at the head of [s] (white space already skipped), the
    elements of an array after its bracket, and the members of an object
    after its brace.  Every call consumes a character of the text, so the
    fuel handed out by [json_loads] is never used up (lemma
    [json_loads_fuel]). *)
Fixpoint scan_value (fuel : nat) (s : string) : scanned pyval :=
  match fuel with
  | O => None
  | S fuel' =>
      match s with
      | EmptyString => None
      | String c r =>
          if (c =? dquote)%char then
            match scanstring r with
            | Some (t, x, rest) => Some (PStr t, x, rest)
            | None => None
            end
          else if (c =? "{")%char then
            match skip_ws r with
            | String "}" rest => Some (PDict [], false, rest)
            | r1 =>
                match scan_members fuel' r1 with
                | Some (ps, x, rest) => Some (PDict (dict_of_pairs ps), x, rest)
                | None => None
                end
            end
          else if (c =? "[")%char then
            match skip_ws r with
            | String "]" rest => Some (PList [], false, rest)
            | r1 =>
                match scan_elements fuel' r1 with
                | Some (l, x, rest) => Some (PList l, x, rest)
                | None => None
                end
            end
          else scan_atom s
      end
  end

with scan_elements (fuel : nat) (s : string) : scanned (list pyval) :=
  match fuel with
  | O => None
  | S fuel' =>
      match scan_value fuel' s with
      | Some (v, x, rest) =>
          match skip_ws rest with
          | String "]" rest' => Some ([v], x, rest')
          | String "," rest' =>
              match scan_elements fuel' (skip_ws rest') with
              | Some (l, y, rest'') => Some (v :: l, x || y, rest'')
              | None => None
              end
          | _ => None
          end
      | None => None
      end
  end

with scan_members (fuel : nat) (s : string)
  : scanned (list (string * pyval)) :=
  match fuel with
  | O => None
  | S fuel' =>
      match s with
      | String c r =>
          if (c =? dquote)%char then
            match scanstring r with
            | Some (k, x, rest) =>
                match skip_ws rest with
                | String ":" rest1 =>
                    match scan_value fuel' (skip_ws rest1) with
                    | Some (v, y, rest2) =>
                        match skip_ws rest2 with
                        | String "}" rest3 => Some ([(k, v)], x || y, rest3)
                        | String "," rest3 =>
                            match scan_members fuel' (skip_ws rest3) with
                            | Some (ps, z, rest4) =>
                                Some ((k, v) :: ps, x || y || z, rest4)
                            | None => None
                            end
                        | _ => None
                        end
                    | None => None
                    end
                | _ => None
                end
            | None => None
            end
          else None
      | EmptyString => None
      end
  end.

(** [json.loads(s)] *)
Definition json_loads (s : string) : decoded :=
  match scan_value (2 * String.length s + 2) (skip_ws s) with
  | Some (v, x, rest) =>
      match skip_ws rest with
      | EmptyString => if x then Unsupported else Decoded v
      | String _ _ => Malformed
      end
  | None => Malformed
  end.

(** ** Lexical classes used to reason about the decoder *)

(** The text after a number token: it does not carry the token on. *)
Definition stops_number (rest : string) : bool :=
  match rest with
  | EmptyString => true
  | String c _ =>
      negb (is_digit c) && negb (c =? ".")%char
      && negb (c =? "e")%char && negb (c =? "E")%char
  end.

(** A decimal numeral without a superfluous leading zero. *)
Definition normal_uint (u : Decimal.uint) : Prop :=
  match u with
  | Decimal.Nil => False
  | Decimal.D0 Decimal.Nil => True
  | Decimal.D0 _ => False
  | _ => True
  end.

(** The characters a value can start with. *)
Definition value_head (c : ascii) : bool :=
  is_digit c
  || (c =? "-")%char || (c =? "n")%char || (c =? "t")%char
  || (c =? "f")%char || (c =? dquote)%char || (c =? "[")%char
  || (c =? "{")%char.

(** The characters a number can start with. *)
Definition numeric_head (c : ascii) : bool :=
  is_digit c || (c =? "-")%char.

(** [s] is not empty and its first character is in the class [p]. *)
Definition starts_with (p : ascii -> bool) (s : string) : Prop :=
  exists c r, s = String c r /\ p c = true.

(** What the decoder does with the text of a value, as a statement about
    the values of a bounded size. *)
Definition reads_back (n : nat) : Prop :=
  forall v, (size v <= n)%nat ->
  forall lvl rest fuel,
    well_formed v = true -> (size v < fuel)%nat ->
    stops_number rest = true ->
    scan_value fuel (encode lvl v ++ rest) = Some (v, false, rest).

End Json.
Export Json.

(* ================================================================== *)
(** * The class [InventoryManager] *)
(* ================================================================== *)

Module Inventory.

(** ** The object and the world around it *)

(** A log line: [f"{datetime.now()}: Added {qty} of {item}"] and its
    counterpart for removals, kept with their parts apart. *)
Inductive log_entry : Type :=
| Added (now : Z) (qty : pyval) (item : string)
| Removed (now : Z) (qty : pyval) (item : string).

(** The attributes set by [__init__]. *)
Record manager : Type := mkManager {
  stock_data : pyval;
  default_file : string;
  logs : list log_entry
}.

(** [InventoryManager(default_file)] *)
Definition init (default_file : string) : manager :=
  mkManager (PDict []) default_file [].

(** The lines the methods print, one constructor per [print] call of the
    source, carrying the values interpolated into the text. *)
Inductive message : Type :=
| ErrItemName (item : pyval)
| ErrQuantity (qty : pyval)
| ErrNotFound (item : string)
| ErrNotEnough (item : string) (have need : pyval)
| LogLine (entry : log_entry)
| InfoOutOfStock (item : string)
| LoadedFrom (file : string)
| WarnFileNotFound (file : string)
| ErrDecode (file : string)
| ErrLoading (file : string)
| SavedTo (file : string)
| ErrSaving (file : string)
| ReportHeader
| ReportEmpty
| ReportLine (item : string) (qty : pyval)
| ReportFooter
| InvalidCasesHeader
| InvalidCasesFooter
| CurrentStock (item : string) (qty : pyval)
| LowItems (threshold : Z) (items : list string)
| ScriptFinished.

(** The prefix of the printed line: ["Error: "], ["Warning: "],
    ["Info: "], or none. *)
Inductive level : Type := Error | Warning | Info | Plain.

Definition level_of (msg : message) : level :=
  match msg with
  | ErrItemName _ | ErrQuantity _ | ErrNotFound _ | ErrNotEnough _ _ _
  | ErrDecode _ | ErrLoading _ | ErrSaving _ => Error
  | WarnFileNotFound _ => Warning
  | InfoOutOfStock _ => Info
  | LogLine _ | LoadedFrom _ | SavedTo _
  | ReportHeader | ReportEmpty | ReportLine _ _ | ReportFooter
  | InvalidCasesHeader | InvalidCasesFooter | CurrentStock _ _
  | LowItems _ _ | ScriptFinished => Plain
  end.

(** What a path names: nothing, something that cannot be opened or read,
    or a text file. *)
Inductive file : Type :=
| Absent
| Faulty
| Text (content : string).

(** The outside world: the files; for every path, whether writing it
    fails and what it leaves behind when it does; the console; and the
    readings the clock will give. *)
Record world : Type := mkWorld {
  files : string -> file;
  write_fault : string -> option file;
  stdout : list message;
  clock : nat -> Z;
  reads : nat
}.

(** ** Running a method *)

(** A call returns, raises, terminates the process through [sys.exit], or
    leaves the model (a document with floating point numbers). *)
Inductive outcome (A : Type) : Type :=
| Done (a : A) (m : manager) (w : world)
| Raised (e : exn) (m : manager) (w : world)
| Exited (code : Z) (m : manager) (w : world)
| Unmodelled.

Arguments Done {A} a m w.
Arguments Raised {A} e m w.
Arguments Exited {A} code m w.
Arguments Unmodelled {A}.

Definition M (A : Type) : Type := manager -> world -> outcome A.

Definition ret {A} (a : A) : M A := fun m w => Done a m w.

Definition bind {A B} (c : M A) (k : A -> M B) : M B :=
  fun m w =>
    match c m w with
    | Done a m' w' => k a m' w'
    | Raised e m' w' => Raised e m' w'
    | Exited code m' w' => Exited code m' w'
    | Unmodelled => Unmodelled
    end.

Declare Scope py_scope.
Delimit Scope py_scope with py.
Notation "x <- c ;; k" := (bind c (fun x => k))
  (at level 61, c at next level, right associativity) : py_scope.
Notation "c ;; k" := (bind c (fun _ => k))
  (at level 61, right associativity) : py_scope.
Local Open Scope py_scope.

Definition raise {A} (e : exn) : M A := fun m w => Raised e m w.

(** [sys.exit(code)] *)
Definition sys_exit {A} (code : Z) : M A := fun m w => Exited code m w.

(** The result of a primitive of [Py], raising its exception if any. *)
Definition lift {A} (r : exn + A) : M A :=
  match r with
  | inr a => ret a
  | inl e => raise e
  end.

(** [try: body except ...: handler] *)
Definition try_except {A} (body : M A) (handler : exn -> M A) : M A :=
  fun m w =>
    match body m w with
    | Raised e m' w' => handler e m' w'
    | o => o
    end.

(** [self.stock_data] *)
Definition get_stock : M pyval := fun m w => Done (stock_data m) m w.

(** [self.stock_data = v] *)
Definition set_stock (v : pyval) : M unit :=
  fun m w => Done tt (mkManager v (default_file m) (logs m)) w.

(** [self.default_file] *)
Definition get_default_file : M string :=
  fun m w => Done (default_file m) m w.

(** [self.logs.append(entry)] *)
Definition append_log (entry : log_entry) : M unit :=
  fun m w =>
    Done tt (mkManager (stock_data m) (default_file m) (logs m ++ [entry])) w.

(** The world after one more line on the console. *)
Definition emit (msg : message) (w : world) : world :=
  mkWorld (files w) (write_fault w) (stdout w ++ [msg]) (clock w) (reads w).

(** [print(msg)] *)
Definition print (msg : message) : M unit :=
  fun m w => Done tt m (emit msg w).

(** The world after one more reading of the clock. *)
Definition tick (w : world) : world :=
  mkWorld (files w) (write_fault w) (stdout w) (clock w) (S (reads w)).

(** [datetime.now()] *)
Definition datetime_now : M Z :=
  fun m w => Done (clock w (reads w)) m (tick w).

(** [with open(file, "r", encoding="utf-8") as f: f.read()] *)
Definition read_text (path : string) : M string :=
  fun m w =>
    match files w path with
    | Absent => Raised FileNotFoundError m w
    | Faulty => Raised OSError m w
    | Text s => Done s m w
    end.

Definition put_file (path : string) (f : file) (w : world) : world :=
  mkWorld (fun p => if (p =? path)%string then f else files w p)
    (write_fault w) (stdout w) (clock w) (reads w).

(** [with open(file, "w", encoding="utf-8") as f: f.write(s)] *)
Definition write_text (path : string) (s : string) : M unit :=
  fun m w =>
    match write_fault w path with
    | None => Done tt m (put_file path (Text s) w)
    | Some f => Raised OSError m (put_file path f w)
    end.

(** [json.loads(s)] as a step of a method. *)
Definition json_load_text (s : string) : M pyval :=
  fun m w =>
    match json_loads s with
    | Decoded v => Done v m w
    | Malformed => Raised JSONDecodeError m w
    | Unsupported => Unmodelled
    end.

(** ** The methods *)

(** The characters of a [str] and the number of an [int] instance, read
    only after the matching [isinstance] test has passed. *)
Definition str_value (v : pyval) : string :=
  match v with PStr s => s | _ => "" end.

Definition int_value (v : pyval) : Z :=
  match as_int v with Some z => z | None => 0 end.

(** [not isinstance(item, str) or not item] *)
Definition bad_item (item : pyval) : bool :=
  negb (isinstance_str item) || negb (truthy item).

(** [not isinstance(qty, int) or qty <= 0] *)
Definition bad_qty (qty : pyval) : bool :=
  negb (isinstance_int qty) || (int_value qty <=? 0).

(** [def add_item(self, item, qty)] *)
Definition add_item (item qty : pyval) : M unit :=
  if bad_item item then
    print (ErrItemName item)
  else if bad_qty qty then
    print (ErrQuantity qty)
  else
    let name := str_value item in
    sd <- get_stock ;;
    old <- lift (get_method sd item (PInt 0)) ;;
    new <- lift (add_int old (int_value qty)) ;;
    sd' <- lift (setitem sd name new) ;;
    set_stock sd' ;;
    now <- datetime_now ;;
    let log_entry := Added now qty name in
    append_log log_entry ;;
    print (LogLine log_entry).

(** [def remove_item(self, item, qty)] *)
Definition remove_item (item qty : pyval) : M unit :=
  if bad_item item then
    print (ErrItemName item)
  else if bad_qty qty then
    print (ErrQuantity qty)
  else
    let name := str_value item in
    sd <- get_stock ;;
    present <- lift (contains sd name) ;;
    if negb present then
      print (ErrNotFound name)
    else
      cur <- lift (getitem sd name) ;;
      short <- lift (lt_int cur (int_value qty)) ;;
      if short then
        have <- lift (getitem sd name) ;;
        print (ErrNotEnough name have qty)
      else
        (* Only perform the action if all checks pass *)
        cur <- lift (getitem sd name) ;;
        new <- lift (sub_int cur (int_value qty)) ;;
        sd' <- lift (setitem sd name new) ;;
        set_stock sd' ;;
        now <- datetime_now ;;
        let log_entry := Removed now qty name in
        append_log log_entry ;;
        print (LogLine log_entry) ;;
        (* Clean up item if stock is zero *)
        sd <- get_stock ;;
        left <- lift (getitem sd name) ;;
        if eq_zero left then
          sd' <- lift (delitem sd name) ;;
          set_stock sd' ;;
          print (InfoOutOfStock name)
        else
          ret tt.

(** [def get_qty(self, item)] *)
Definition get_qty (item : pyval) : M pyval :=
  sd <- get_stock ;;
  lift (get_method sd item (PInt 0)).

(** [file = self.default_file if file is None] *)
Definition path_or_default (file : option string) : M string :=
  match file with
  | None => get_default_file
  | Some path => ret path
  end.

(** [def load_data(self, file=None)] *)
Definition load_data (file : option string) : M unit :=
  file <- path_or_default file ;;
  try_except
    (text <- read_text file ;;
     v <- json_load_text text ;;
     set_stock v ;;
     print (LoadedFrom file))
    (fun e =>
       match e with
       | FileNotFoundError =>
           print (WarnFileNotFound file) ;;
           set_stock (PDict [])
       | JSONDecodeError =>
           print (ErrDecode file) ;;
           sys_exit 1
       | OSError =>
           print (ErrLoading file) ;;
           sys_exit 1
       | _ => raise e
       end).

(** [def save_data(self, file=None)]; [IOError] is [OSError], of which
    [FileNotFoundError] is a subclass. *)
Definition save_data (file : option string) : M unit :=
  file <- path_or_default file ;;
  try_except
    (sd <- get_stock ;;
     write_text file (json_dumps sd) ;;
     print (SavedTo file))
    (fun e =>
       match e with
       | OSError | FileNotFoundError => print (ErrSaving file)
       | _ => raise e
       end).

(** [for x in xs: body(x)] *)
Fixpoint for_each {A} (xs : list A) (body : A -> M unit) : M unit :=
  match xs with
  | [] => ret tt
  | x :: xs' => body x ;; for_each xs' body
  end.

(** [def print_data(self)] *)
Definition print_data : M unit :=
  print ReportHeader ;;
  sd <- get_stock ;;
  (if negb (truthy sd) then
     print ReportEmpty
   else
     its <- lift (items_method sd) ;;
     for_each its (fun kv => print (ReportLine (fst kv) (snd kv)))) ;;
  print ReportFooter.

(** [[item for item, qty in its if qty < threshold]] *)
Fixpoint low_items (its : list (string * pyval)) (threshold : Z)
  : exn + list string :=
  match its with
  | [] => inr []
  | (item, qty) :: its' =>
      match lt_int qty threshold with
      | inl e => inl e
      | inr b =>
          match low_items its' threshold with
          | inl e => inl e
          | inr l => inr (if b then item :: l else l)
          end
      end
  end.

(** [def check_low_items(self, threshold=5)]; the parameter is an [int],
    as annotated. *)
Definition check_low_items (threshold : Z) : M (list string) :=
  sd <- get_stock ;;
  its <- lift (items_method sd) ;;
  lift (low_items its threshold).

(** The script under [if __name__ == "__main__":], run on the manager
    [InventoryManager("inventory.json")]. *)
Definition main : M unit :=
  load_data None ;;
  print_data ;;
  add_item (PStr "apple") (PInt 10) ;;
  add_item (PStr "banana") (PInt 15) ;;
  print InvalidCasesHeader ;;
  add_item (PStr "apple") (PInt (-5)) ;;
  add_item (PInt 123) (PInt 10) ;;
  remove_item (PStr "orange") (PInt 1) ;;
  remove_item (PStr "banana") (PInt 20) ;;
  print InvalidCasesFooter ;;
  remove_item (PStr "apple") (PInt 3) ;;
  remove_item (PStr "banana") (PInt 15) ;;
  apples <- get_qty (PStr "apple") ;;
  print (CurrentStock "apple" apples) ;;
  bananas <- get_qty (PStr "banana") ;;
  print (CurrentStock "banana" bananas) ;;
  add_item (PStr "grape") (PInt 3) ;;
  low <- check_low_items 5 ;;
  print (LowItems 5 low) ;;
  print_data ;;
  save_data None ;;
  print ScriptFinished.

(** ** The operations of the store as data *)

Inductive call : Type :=
| AddItem (item qty : pyval)
| RemoveItem (item qty : pyval)
| GetQty (item : pyval)
| LoadData (file : option string)
| SaveData (file : option string)
| PrintData
| CheckLowItems (threshold : Z).

(** The manager a call leaves behind, when the model follows it. *)
Definition manager_of {A} (o : outcome A) : option manager :=
  match o with
  | Done _ m _ | Raised _ m _ | Exited _ m _ => Some m
  | Unmodelled => None
  end.

Definition run (c : call) (m : manager) (w : world) : option manager :=
  match c with
  | AddItem item qty => manager_of (add_item item qty m w)
  | RemoveItem item qty => manager_of (remove_item item qty m w)
  | GetQty item => manager_of (get_qty item m w)
  | LoadData file => manager_of (load_data file m w)
  | SaveData file => manager_of (save_data file m w)
  | PrintData => manager_of (print_data m w)
  | CheckLowItems threshold => manager_of (check_low_items threshold m w)
  end.

(** ** The invariant of the inventory map *)

(** A key is a non-empty string and its value an integer that is at
    least 1. *)
Definition valid_entry (kv : string * pyval) : bool :=
  negb (fst kv =? "")%string &&
  match as_int (snd kv) with
  | Some z => 1 <=? z
  | None => false
  end.

Definition valid_stock (v : pyval) : bool :=
  match v with
  | PDict d => forallb valid_entry d
  | _ => false
  end.

Definition inventory_ok (m : manager) : Prop :=
  valid_stock (stock_data m) = true.

(** The typing of the map alone: every value is an [int] instance. *)
Definition int_valued (d : dict) : bool :=
  forallb (fun kv => isinstance_int (snd kv)) d.

(** The conditions on the arguments in the words of the documentation: a
    non-empty string, a positive integer. *)
Definition is_nonempty_str (v : pyval) : bool :=
  match v with
  | PStr s => negb (s =? "")%string
  | _ => false
  end.

Definition is_positive_int (v : pyval) : bool :=
  match as_int v with
  | Some z => 0 <? z
  | None => false
  end.

(** The path a call of [load_data] or [save_data] works on. *)
Definition path_of (file : option string) (m : manager) : string :=
  match file with
  | None => default_file m
  | Some path => path
  end.

(** ** Vocabulary of the properties *)

(** The quantity on record for [name]: 0 when it is not a key. *)
Definition quantity (d : dict) (name : string) : Z :=
  match dict_lookup d name with
  | Some v => int_value v
  | None => 0
  end.

(** The two methods that change quantities, and the reasons for which
    they turn a call down: both check the arguments; [remove_item] also
    wants the item in stock, in sufficient quantity. *)
Inductive method : Type := Add | Remove.

(** The call [f(item, qty)]. *)
Definition invoke (f : method) : pyval -> pyval -> M unit :=
  match f with
  | Add => add_item
  | Remove => remove_item
  end.

(** [rejected m item qty f]: the manager [m] turns the call
    [f(item, qty)] down. *)
Inductive rejected (m : manager) (item qty : pyval) : method -> Prop :=
| bad_name f :
    is_nonempty_str item = false -> rejected m item qty f
| bad_quantity f :
    is_positive_int qty = false -> rejected m item qty f
| not_found d name :
    item = PStr name ->
    stock_data m = PDict d ->
    dict_mem d name = false ->
    rejected m item qty Remove
| not_enough d name v cur :
    item = PStr name ->
    stock_data m = PDict d ->
    dict_lookup d name = Some v ->
    as_int v = Some cur ->
    cur < int_value qty ->
    rejected m item qty Remove.

(** A manager and a world to run the methods on. *)
Definition sample_manager : manager :=
  mkManager (PDict [("apple", PInt 7); ("grape", PInt 3)])
    "inventory.json" [].

Definition quiet_world : world :=
  mkWorld (fun _ => Absent) (fun _ => None) [] (fun _ => 0) 0.

(** A world whose files all hold a document cut short, and one where
    every write fails and leaves an empty file. *)
Definition world_with_truncated_document : world :=
  mkWorld (fun _ => Text "{") (fun _ => None) [] (fun _ => 0) 0.

Definition world_with_full_disk : world :=
  mkWorld (fun _ => Absent) (fun _ => Some (Text "")) [] (fun _ => 0) 0.

(** A document with a quantity of 0, which [save_data] never writes for
    an inventory that satisfies the invariant but which is JSON all the
    same: [{"a": 0}]. *)
Definition zero_quantity_document : string :=
  "{" ++ String dquote "a" ++ String dquote ": 0}".

(** A world whose files all hold that document. *)
Definition world_with_zero_quantity : world :=
  mkWorld (fun _ => Text zero_quantity_document) (fun _ => None) []
    (fun _ => 0) 0.

(** ** Vocabulary of the further properties *)

(** The world after several more lines on the console. *)
Definition emit_all (msgs : list message) (w : world) : world :=
  mkWorld (files w) (write_fault w) (stdout w ++ msgs) (clock w) (reads w).

(** The body of the report of [print_data]: one line per entry, in the
    order of the dictionary. *)
Definition report_lines (d : dict) : list message :=
  map (fun kv => ReportLine (fst kv) (snd kv)) d.

(** A run of calls of [add_item] and [remove_item], one after the
    other. *)
Fixpoint run_mutations (cs : list (method * pyval * pyval)) : M unit :=
  match cs with
  | [] => ret tt
  | (f, item, qty) :: cs' => invoke f item qty ;; run_mutations cs'
  end.

(** The three ways in which a call of [add_item] or [remove_item] can end:
    it is turned down with one error line; it raises before anything is
    changed; or it goes through, with one more log entry. *)
Inductive mutation_outcome (m : manager) (w : world)
  : outcome unit -> Prop :=
| turned_down msg :
    level_of msg = Error ->
    mutation_outcome m w (Done tt m (emit msg w))
| raised_early e :
    mutation_outcome m w (Raised e m w)
| went_through sd entry w' :
    mutation_outcome m w
      (Done tt (mkManager sd (default_file m) (logs m ++ [entry])) w').

(** The calls that only read the inventory. *)
Definition read_only (c : call) : bool :=
  match c with
  | GetQty _ | SaveData _ | PrintData | CheckLowItems _ => true
  | AddItem _ _ | RemoveItem _ _ | LoadData _ => false
  end.

End Inventory.
Export Inventory.

(* ================================================================== *)
(** * Properties *)
(* ================================================================== *)

Local Open Scope py_scope.

(** ** Dictionaries *)

Section DictFacts.

Variable P : string * pyval -> bool.

Lemma dict_lookup_set_same (d : dict) k v :
  dict_lookup (dict_set d k v) k = Some v.
Proof.
  induction d as [|[k' v'] d IH]; simpl.
  - now rewrite String.eqb_refl.
  - destruct (k' =? k)%string eqn:E; simpl; rewrite E; auto.
Qed.

Lemma dict_lookup_set_other (d : dict) k v k' :
  k' <> k -> dict_lookup (dict_set d k v) k' = dict_lookup d k'.
Proof.
  intros Hne. induction d as [|[k0 v0] d IH]; simpl.
  - destruct (k =? k')%string eqn:E; auto.
    apply String.eqb_eq in E. congruence.
  - destruct (k0 =? k)%string eqn:E; simpl.
    + apply String.eqb_eq in E. subst k0.
      destruct (k =? k')%string eqn:E'; auto.
      apply String.eqb_eq in E'. congruence.
    + now rewrite IH.
Qed.

Lemma dict_lookup_del_same (d : dict) k : dict_lookup (dict_del d k) k = None.
Proof.
  induction d as [|[k' v'] d IH]; simpl; auto.
  destruct (k' =? k)%string eqn:E; simpl; auto. now rewrite E.
Qed.

Lemma dict_lookup_del_other (d : dict) k k' :
  k' <> k -> dict_lookup (dict_del d k) k' = dict_lookup d k'.
Proof.
  intros Hne. induction d as [|[k0 v0] d IH]; simpl; auto.
  destruct (k0 =? k)%string eqn:E; simpl.
  - apply String.eqb_eq in E. subst k0.
    destruct (k =? k')%string eqn:E'; auto.
    apply String.eqb_eq in E'. congruence.
  - now rewrite IH.
Qed.

Lemma dict_lookup_In (d : dict) k v :
  dict_lookup d k = Some v -> In (k, v) d.
Proof.
  induction d as [|[k' v'] d IH]; simpl; try discriminate.
  destruct (k' =? k)%string eqn:E; intros H.
  - apply String.eqb_eq in E. left. congruence.
  - right. auto.
Qed.

Lemma forallb_lookup (d : dict) k v :
  forallb P d = true -> dict_lookup d k = Some v -> P (k, v) = true.
Proof.
  intros Hall Hk. apply dict_lookup_In in Hk.
  rewrite forallb_forall in Hall. now apply Hall.
Qed.

Lemma forallb_dict_set (d : dict) k v :
  forallb P d = true -> P (k, v) = true ->
  forallb P (dict_set d k v) = true.
Proof.
  intros Hall Hkv. induction d as [|[k' v'] d IH]; simpl in *.
  - now rewrite Hkv.
  - apply andb_true_iff in Hall as [H1 H2].
    destruct (k' =? k)%string eqn:E; simpl.
    + apply String.eqb_eq in E. subst k'. now rewrite Hkv, H2.
    + rewrite H1. now apply IH.
Qed.

Lemma forallb_dict_del (d : dict) k :
  forallb P d = true -> forallb P (dict_del d k) = true.
Proof.
  induction d as [|[k' v'] d IH]; simpl; auto.
  intros Hall. apply andb_true_iff in Hall as [H1 H2].
  destruct (k' =? k)%string; simpl; auto.
  rewrite H1. auto.
Qed.

End DictFacts.

(** A new key goes to the end of the dictionary and a present key stays
    where it is: the order of a dictionary is the order of insertion. *)
Lemma dict_keys_set (d : dict) k v :
  dict_keys (dict_set d k v) =
  if dict_mem d k then dict_keys d else (dict_keys d ++ [k])%list.
Proof.
  unfold dict_mem, dict_keys.
  induction d as [|[k' v'] d IH]; simpl; auto.
  destruct (k' =? k)%string eqn:E; simpl; auto.
  rewrite IH. now destruct (dict_lookup d k).
Qed.

(** ** The script of the module *)

(** Run where no inventory file exists yet, the script ends normally with
    7 apples and 3 grapes in stock, lists only the grapes as low, and
    leaves the inventory in the file. *)
Example main_on_fresh_world :
  exists w,
    main (init "inventory.json") quiet_world
    = Done tt
        (mkManager (PDict [("apple", PInt 7); ("grape", PInt 3)])
           "inventory.json"
           [Added 0 (PInt 10) "apple"; Added 0 (PInt 15) "banana";
            Removed 0 (PInt 3) "apple"; Removed 0 (PInt 15) "banana";
            Added 0 (PInt 3) "grape"]) w
    /\ files w "inventory.json"
       = Text (json_dumps (PDict [("apple", PInt 7); ("grape", PInt 3)]))
    /\ stdout w =
         [WarnFileNotFound "inventory.json";
          ReportHeader; ReportEmpty; ReportFooter;
          LogLine (Added 0 (PInt 10) "apple");
          LogLine (Added 0 (PInt 15) "banana");
          InvalidCasesHeader;
          ErrQuantity (PInt (-5));
          ErrItemName (PInt 123);
          ErrNotFound "orange";
          ErrNotEnough "banana" (PInt 15) (PInt 20);
          InvalidCasesFooter;
          LogLine (Removed 0 (PInt 3) "apple");
          LogLine (Removed 0 (PInt 15) "banana");
          InfoOutOfStock "banana";
          CurrentStock "apple" (PInt 7);
          CurrentStock "banana" (PInt 0);
          LogLine (Added 0 (PInt 3) "grape");
          LowItems 5 ["grape"];
          ReportHeader; ReportLine "apple" (PInt 7);
          ReportLine "grape" (PInt 3); ReportFooter;
          SavedTo "inventory.json";
          ScriptFinished].
Proof.
  eexists. split; [vm_compute; reflexivity|]. split; reflexivity.
Qed.

(** ** Validation *)

(** The tests at the head of [add_item] and [remove_item] reject exactly
    the arguments that are not a non-empty string, or not a positive
    integer. *)
Lemma bad_item_spec (item : pyval) :
  bad_item item = negb (is_nonempty_str item).
Proof.
  destruct item; reflexivity.
Qed.

Lemma bad_qty_spec (qty : pyval) :
  bad_qty qty = negb (is_positive_int qty).
Proof.
  unfold bad_qty, is_positive_int, int_value.
  destruct qty as [|[|]|z| | |]; try reflexivity.
  change (as_int (PInt z)) with (Some z). cbv beta iota.
  destruct (Z.leb_spec z 0), (Z.ltb_spec 0 z); simpl; auto; lia.
Qed.

Lemma good_item_inv (item : pyval) :
  bad_item item = false ->
  exists name, item = PStr name /\ name <> "".
Proof.
  rewrite bad_item_spec. destruct item; simpl; try discriminate.
  intros H. exists s. split; auto. intros ->. discriminate.
Qed.

Lemma good_qty_inv (qty : pyval) :
  bad_qty qty = false ->
  as_int qty = Some (int_value qty) /\ 0 < int_value qty.
Proof.
  rewrite bad_qty_spec. unfold is_positive_int, int_value.
  destruct (as_int qty); simpl; try discriminate.
  intros H. apply negb_false_iff, Z.ltb_lt in H. auto.
Qed.

(** ** Reading a quantity *)

Lemma get_qty_dict (m : manager) (w : world) (d : dict) (name : string) :
  stock_data m = PDict d ->
  get_qty (PStr name) m w =
    Done (match dict_lookup d name with
          | Some v => v
          | None => PInt 0
          end) m w.
Proof.
  intros Hd. unfold get_qty, bind, get_stock. rewrite Hd. simpl.
  now destruct (dict_lookup d name).
Qed.

(** C9. On an inventory map, [get_qty(item)] for an item name returns the
    item's value when the name is a key and 0 when it is not; it returns
    normally and changes neither the manager nor the world. *)
Theorem get_qty_total (m : manager) (w : world) (d : dict) (name : string) :
  stock_data m = PDict d ->
  (forall v, dict_lookup d name = Some v ->
     get_qty (PStr name) m w = Done v m w)
  /\ (dict_mem d name = false ->
        get_qty (PStr name) m w = Done (PInt 0) m w).
Proof.
  intros Hd. pose proof (get_qty_dict m w d name Hd) as E. split.
  - intros v Hv. now rewrite E, Hv.
  - unfold dict_mem. intros Hk. rewrite E.
    now destruct (dict_lookup d name).
Qed.

Lemma get_qty_total_witness :
  get_qty (PStr "apple") sample_manager quiet_world
  = Done (PInt 7) sample_manager quiet_world
  /\ get_qty (PStr "pear") sample_manager quiet_world
     = Done (PInt 0) sample_manager quiet_world.
Proof.
  destruct (get_qty_total sample_manager quiet_world
              [("apple", PInt 7); ("grape", PInt 3)] "apple" eq_refl)
    as [Hpresent _].
  destruct (get_qty_total sample_manager quiet_world
              [("apple", PInt 7); ("grape", PInt 3)] "pear" eq_refl)
    as [_ Habsent].
  split; [exact (Hpresent (PInt 7) eq_refl) | exact (Habsent eq_refl)].
Defined.

(** ** Loading *)

(** C8. When the path names no file, [load_data] prints the warning, makes
    the inventory the empty map and returns normally. *)
Theorem load_data_missing_file (m : manager) (w : world)
    (file : option string) :
  files w (path_of file m) = Absent ->
  load_data file m w =
    Done tt (mkManager (PDict []) (default_file m) (logs m))
      (emit (WarnFileNotFound (path_of file m)) w)
  /\ level_of (WarnFileNotFound (path_of file m)) = Warning.
Proof.
  intros Hf. split; [|reflexivity].
  unfold load_data, path_of in *.
  destruct file as [path|]; unfold bind; simpl;
    unfold try_except, bind, read_text; rewrite Hf; reflexivity.
Qed.

Lemma load_data_missing_file_witness :
  load_data (Some "nowhere.json") sample_manager quiet_world
  = Done tt (mkManager (PDict []) "inventory.json" [])
      (emit (WarnFileNotFound "nowhere.json") quiet_world).
Proof.
  exact (proj1 (load_data_missing_file sample_manager quiet_world
                  (Some "nowhere.json") eq_refl)).
Defined.



(** ** Saving *)

(** C10. When writing the file fails, [save_data] prints an error and
    returns normally; the manager (inventory map, default path and log) is
    as before the call. *)
Theorem save_data_write_failure (m : manager) (w : world)
    (file : option string) (left_behind : Inventory.file) :
  write_fault w (path_of file m) = Some left_behind ->
  save_data file m w =
    Done tt m
      (emit (ErrSaving (path_of file m))
         (put_file (path_of file m) left_behind w))
  /\ level_of (ErrSaving (path_of file m)) = Error.
Proof.
  intros Hf. split; [|reflexivity].
  unfold save_data, path_of in *.
  destruct file as [path|]; unfold bind; simpl;
    unfold try_except, bind, get_stock, write_text; simpl;
    rewrite Hf; reflexivity.
Qed.

Lemma save_data_write_failure_witness :
  save_data None sample_manager world_with_full_disk
  = Done tt sample_manager
      (emit (ErrSaving "inventory.json")
         (put_file "inventory.json" (Text "") world_with_full_disk)).
Proof.
  exact (proj1 (save_data_write_failure sample_manager world_with_full_disk
                  None (Text "") eq_refl)).
Defined.

(** ** Adding and removing *)

(** Unfolds the plumbing of the monad, leaving the primitives of [Py]. *)
Ltac step_py :=
  unfold bind, ret, lift, raise, get_stock, set_stock, append_log, print,
    datetime_now; simpl.

Lemma int_valued_lookup (d : dict) k v :
  int_valued d = true -> dict_lookup d k = Some v ->
  as_int v = Some (int_value v).
Proof.
  intros Hd Hk. unfold int_valued in Hd.
  pose proof (forallb_lookup _ d k v Hd Hk) as Hv. simpl in Hv.
  unfold int_value. destruct v as [|[|]| | | |]; simpl in *;
    congruence.
Qed.

Lemma add_item_runs (m : manager) (w : world) (d : dict)
    (name : string) (qty : pyval) :
  stock_data m = PDict d ->
  int_valued d = true ->
  is_nonempty_str (PStr name) = true ->
  is_positive_int qty = true ->
  add_item (PStr name) qty m w =
    Done tt
      (mkManager
         (PDict (dict_set d name (PInt (quantity d name + int_value qty))))
         (default_file m)
         (logs m ++ [Added (clock w (reads w)) qty name]))
      (emit (LogLine (Added (clock w (reads w)) qty name)) (tick w)).
Proof.
  intros Hd Hint Hname Hqty.
  assert (Hbi : bad_item (PStr name) = false)
    by (rewrite bad_item_spec, Hname; reflexivity).
  assert (Hbq : bad_qty qty = false)
    by (rewrite bad_qty_spec, Hqty; reflexivity).
  unfold add_item. rewrite Hbi, Hbq. step_py. rewrite Hd. simpl.
  unfold quantity, add_int.
  destruct (dict_lookup d name) as [v|] eqn:Hk; simpl.
  - rewrite (int_valued_lookup d name v Hint Hk). reflexivity.
  - reflexivity.
Qed.





Lemma dict_del_set_same (d : dict) k v :
  dict_del (dict_set d k v) k = dict_del d k.
Proof.
  induction d as [|[k' v'] d IH]; simpl.
  - now rewrite String.eqb_refl.
  - destruct (k' =? k)%string eqn:E; simpl; rewrite E; auto.
    now rewrite IH.
Qed.

Lemma valid_stock_lookup (d : dict) k v :
  valid_stock (PDict d) = true -> dict_lookup d k = Some v ->
  k <> "" /\ exists z, as_int v = Some z /\ 1 <= z.
Proof.
  intros Hok Hk. simpl in Hok.
  pose proof (forallb_lookup _ d k v Hok Hk) as Hv.
  unfold valid_entry in Hv. simpl in Hv.
  apply andb_true_iff in Hv as [Hne Hz]. split.
  - intros ->. discriminate.
  - destruct (as_int v) as [z|]; [|discriminate].
    exists z. split; auto. now apply Z.leb_le.
Qed.



(** ** Listing the items that run low *)

(** On integer quantities no comparison raises, and the comprehension is
    a filter. *)
Lemma low_items_filter (d : dict) (threshold : Z) :
  int_valued d = true ->
  low_items d threshold =
    inr (map fst (filter (fun kv => int_value (snd kv) <? threshold) d)).
Proof.
  induction d as [|[k v] d IH]; simpl; auto.
  intros Hall. apply andb_true_iff in Hall as [Hv Hd].
  rewrite (IH Hd). unfold lt_int, int_value.
  destruct v as [|[|]| | | |]; simpl in *; try discriminate;
    match goal with |- context [if ?b then _ else _] => destruct b end;
    reflexivity.
Qed.

(** C6. On a map of integer quantities, [check_low_items(threshold)]
    returns normally, with the keys whose quantity is strictly below the
    threshold, in the order of the dictionary, and changes neither the
    manager nor the world; a key is listed if and only if it has an
    entry with a quantity below the threshold, so a quantity equal to the
    threshold is not listed. *)
Theorem check_low_items_exact (m : manager) (w : world) (d : dict)
    (threshold : Z) :
  stock_data m = PDict d ->
  int_valued d = true ->
  let low := map fst (filter (fun kv => int_value (snd kv) <? threshold) d) in
  check_low_items threshold m w = Done low m w
  /\ (forall k, In k low <->
        exists v, In (k, v) d /\ int_value v < threshold)
  /\ (forall k v, In (k, v) d -> int_value v = threshold ->
        (forall v', In (k, v') d -> v' = v) -> ~ In k low).
Proof.
  intros Hd Hint low.
  assert (Hin : forall k, In k low <->
                  exists v, In (k, v) d /\ int_value v < threshold).
  { intros k. unfold low. rewrite in_map_iff. split.
    - intros [[k' v] [Hk Hf]]. simpl in Hk. subst k'.
      apply filter_In in Hf as [Hf Hlt]. exists v. split; auto.
      now apply Z.ltb_lt.
    - intros [v [Hf Hlt]]. exists (k, v). split; auto.
      apply filter_In. split; auto. now apply Z.ltb_lt. }
  split; [|split; [exact Hin|]].
  - unfold check_low_items. step_py. rewrite Hd. simpl.
    rewrite (low_items_filter d threshold Hint). reflexivity.
  - intros k v Hkv Heq Huniq Hlow.
    apply Hin in Hlow as [v' [Hkv' Hlt]].
    rewrite (Huniq v' Hkv') in Hlt. lia.
Qed.

Lemma check_low_items_exact_witness :
  check_low_items 5 sample_manager quiet_world
  = Done ["grape"] sample_manager quiet_world
  /\ check_low_items 7 sample_manager quiet_world
     = Done ["grape"] sample_manager quiet_world
  /\ check_low_items 8 sample_manager quiet_world
     = Done ["apple"; "grape"] sample_manager quiet_world.
Proof.
  split; [|split].
  - exact (proj1 (check_low_items_exact sample_manager quiet_world
                    [("apple", PInt 7); ("grape", PInt 3)] 5
                    eq_refl eq_refl)).
  - exact (proj1 (check_low_items_exact sample_manager quiet_world
                    [("apple", PInt 7); ("grape", PInt 3)] 7
                    eq_refl eq_refl)).
  - exact (proj1 (check_low_items_exact sample_manager quiet_world
                    [("apple", PInt 7); ("grape", PInt 3)] 8
                    eq_refl eq_refl)).
Defined.

(** ** The invariant *)

Lemma valid_stock_int_valued (d : dict) :
  valid_stock (PDict d) = true -> int_valued d = true.
Proof.
  simpl. unfold int_valued. induction d as [|[k v] d IH]; simpl; auto.
  intros H. apply andb_true_iff in H as [Hkv Hd].
  rewrite (IH Hd), andb_true_r.
  unfold valid_entry in Hkv. simpl in Hkv.
  apply andb_true_iff in Hkv as [_ Hv].
  destruct v as [|[|]| | | |]; simpl in *; auto; discriminate.
Qed.

Lemma quantity_nonneg (d : dict) (name : string) :
  valid_stock (PDict d) = true -> 0 <= quantity d name.
Proof.
  intros Hok. unfold quantity.
  destruct (dict_lookup d name) as [v|] eqn:Hk; [|lia].
  destruct (valid_stock_lookup d name v Hok Hk) as [_ [z [Hv Hz]]].
  unfold int_value. rewrite Hv. lia.
Qed.

Lemma add_item_keeps_invariant (item qty : pyval) (m : manager) (w : world) :
  inventory_ok m ->
  exists m' w', add_item item qty m w = Done tt m' w' /\ inventory_ok m'.
Proof.
  intros Hok.
  destruct (bad_item item) eqn:Hbi.
  { exists m, (emit (ErrItemName item) w). split; auto.
    unfold add_item. now rewrite Hbi. }
  destruct (bad_qty qty) eqn:Hbq.
  { exists m, (emit (ErrQuantity qty) w). split; auto.
    unfold add_item. now rewrite Hbi, Hbq. }
  destruct (good_item_inv item Hbi) as [name [-> Hne]].
  destruct (good_qty_inv qty Hbq) as [Hq Hpos].
  unfold inventory_ok in Hok.
  destruct (stock_data m) as [| | | | |d] eqn:Hd; try discriminate.
  assert (E := add_item_runs m w d name qty Hd
                 (valid_stock_int_valued d Hok)).
  rewrite bad_item_spec in Hbi. apply negb_false_iff in Hbi.
  rewrite bad_qty_spec in Hbq. apply negb_false_iff in Hbq.
  specialize (E Hbi Hbq).
  eexists. eexists. split; [exact E|].
  unfold inventory_ok. simpl. apply forallb_dict_set; auto.
  unfold valid_entry. simpl.
  pose proof (quantity_nonneg d name Hok).
  apply andb_true_iff. split.
  - destruct (name =? "")%string eqn:En; auto.
    apply String.eqb_eq in En. contradiction.
  - apply Z.leb_le. lia.
Qed.

Lemma remove_item_keeps_invariant (item qty : pyval) (m : manager)
    (w : world) :
  inventory_ok m ->
  exists m' w', remove_item item qty m w = Done tt m' w' /\ inventory_ok m'.
Proof.
  intros Hok.
  destruct (bad_item item) eqn:Hbi.
  { exists m, (emit (ErrItemName item) w). split; auto.
    unfold remove_item. now rewrite Hbi. }
  destruct (bad_qty qty) eqn:Hbq.
  { exists m, (emit (ErrQuantity qty) w). split; auto.
    unfold remove_item. now rewrite Hbi, Hbq. }
  destruct (good_item_inv item Hbi) as [name [-> Hne]].
  destruct (good_qty_inv qty Hbq) as [Hq Hpos].
  assert (Hok' := Hok). unfold inventory_ok in Hok'.
  destruct (stock_data m) as [| | | | |d] eqn:Hd; try discriminate.
  unfold remove_item. rewrite Hbi, Hbq. step_py. rewrite Hd. simpl.
  unfold dict_mem.
  destruct (dict_lookup d name) as [v|] eqn:Hk; simpl.
  2:{ eexists. eexists. split; [reflexivity|exact Hok]. }
  destruct (valid_stock_lookup d name v Hok' Hk) as [_ [z [Hv Hz]]].
  unfold lt_int, sub_int. rewrite Hv. simpl.
  destruct (Z.ltb_spec z (int_value qty)) as [Hlt|Hge]; simpl.
  { eexists. eexists. split; [reflexivity|exact Hok]. }
  rewrite dict_lookup_set_same. simpl. unfold ret.
  change (eq_zero (PInt (z - int_value qty)))
    with (z - int_value qty =? 0).
  destruct (Z.eqb_spec (z - int_value qty) 0) as [Hz0|Hz0].
  - eexists. eexists. split; [reflexivity|].
    unfold inventory_ok. simpl. rewrite dict_del_set_same.
    now apply forallb_dict_del.
  - eexists. eexists. split; [reflexivity|].
    unfold inventory_ok. simpl. apply forallb_dict_set; auto.
    unfold valid_entry. simpl. apply andb_true_iff. split.
    + destruct (name =? "")%string eqn:En; auto.
      apply String.eqb_eq in En. contradiction.
    + apply Z.leb_le. lia.
Qed.

Lemma for_each_print_manager (its : list (string * pyval)) (m : manager)
    (w : world) :
  exists w',
    for_each its (fun kv => print (ReportLine (fst kv) (snd kv))) m w
    = Done tt m w'.
Proof.
  revert w. induction its as [|kv its IH]; intros w; simpl.
  - now exists w.
  - unfold bind, print. apply IH.
Qed.

Lemma print_data_manager (m : manager) (w : world) :
  manager_of (print_data m w) = Some m.
Proof.
  unfold print_data. step_py.
  destruct (truthy (stock_data m)); simpl; auto.
  destruct (items_method (stock_data m)) as [e|its]; simpl; auto.
  destruct (for_each_print_manager its m (emit ReportHeader w)) as [w' E].
  unfold print in E. rewrite E. reflexivity.
Qed.




(** ** The codec: what [json.dump] writes, [json.load] reads back *)

Lemma append_assoc (a b c : string) : (a ++ b) ++ c = a ++ (b ++ c).
Proof. induction a as [|x a IH]; simpl; [reflexivity | now rewrite IH]. Qed.

Lemma append_nil_r (a : string) : a ++ "" = a.
Proof. induction a as [|x a IH]; simpl; [reflexivity | now rewrite IH]. Qed.

Lemma length_append (a b : string) :
  String.length (a ++ b) = (String.length a + String.length b)%nat.
Proof. induction a as [|x a IH]; simpl; [reflexivity | now rewrite IH]. Qed.

(** *** Strings *)

Lemma scanstring_escape_char (c : ascii) (t : string) :
  scanstring (escape_char c ++ t) = push c false (scanstring t).
Proof.
  destruct c as [[|] [|] [|] [|] [|] [|] [|] [|]]; reflexivity.
Qed.

Lemma scanstring_escape (s rest : string) :
  scanstring (escape s ++ String dquote rest) = Some (s, false, rest).
Proof.
  induction s as [|c s IH]; simpl.
  - reflexivity.
  - rewrite append_assoc, scanstring_escape_char, IH. reflexivity.
Qed.

Lemma encode_str_append (s rest : string) :
  encode_str s ++ rest = String dquote (escape s ++ String dquote rest).
Proof.
  unfold encode_str. simpl. now rewrite append_assoc.
Qed.

(** *** Integers *)

Lemma scan_digits_stop (rest : string) :
  stops_number rest = true -> scan_digits rest = ("", rest).
Proof.
  destruct rest as [|c r]; simpl; auto.
  destruct (is_digit c); simpl; [discriminate | reflexivity].
Qed.

Lemma scan_digits_uint (u : Decimal.uint) (rest : string) :
  stops_number rest = true ->
  scan_digits (NilEmpty.string_of_uint u ++ rest)
  = (NilEmpty.string_of_uint u, rest).
Proof.
  intros Hrest.
  induction u; simpl; try rewrite IHu; try reflexivity.
  now apply scan_digits_stop.
Qed.

Lemma scan_frac_stop (rest : string) :
  stops_number rest = true -> scan_frac rest = (false, rest).
Proof.
  destruct rest as [|c r]; [reflexivity|].
  destruct c as [[|] [|] [|] [|] [|] [|] [|] [|]];
    simpl; intros H; try discriminate H; reflexivity.
Qed.

Lemma scan_exp_stop (rest : string) :
  stops_number rest = true -> scan_exp rest = (false, rest).
Proof.
  destruct rest as [|c r]; [reflexivity|].
  destruct c as [[|] [|] [|] [|] [|] [|] [|] [|]];
    simpl; intros H; try discriminate H; reflexivity.
Qed.

Lemma unorm_normal (u : Decimal.uint) : normal_uint (Decimal.unorm u).
Proof.
  induction u; simpl; auto.
Qed.

Lemma to_uint_normal (p : positive) : normal_uint (Pos.to_uint p).
Proof.
  pose proof (DecimalPos.Unsigned.to_of (Pos.to_uint p)) as H.
  rewrite DecimalPos.Unsigned.of_to in H. simpl in H.
  rewrite H. apply unorm_normal.
Qed.

Lemma scan_int_part_uint (u : Decimal.uint) (rest : string) :
  normal_uint u -> stops_number rest = true ->
  scan_int_part (NilEmpty.string_of_uint u ++ rest)
  = Some (NilEmpty.string_of_uint u, rest).
Proof.
  intros Hu Hrest.
  destruct u as [|u|u|u|u|u|u|u|u|u|u]; simpl in Hu; try contradiction;
    try (destruct u; try contradiction; reflexivity);
    unfold scan_int_part; simpl;
    pose proof (scan_digits_uint u rest Hrest) as E;
    simpl in E; rewrite E; reflexivity.
Qed.

Lemma int_of_digits_uint (u : Decimal.uint) :
  int_of_digits (NilEmpty.string_of_uint u) = Z.of_uint u.
Proof.
  unfold int_of_digits. now rewrite NilEmpty.usu.
Qed.

Lemma scan_number_int (z : Z) (rest : string) :
  stops_number rest = true ->
  scan_number (encode_int z ++ rest) = Some (NInt z, rest).
Proof.
  intros Hrest. unfold encode_int.
  pose proof (DecimalZ.of_to z) as Hz.
  destruct z as [|p|p]; simpl in *.
  - unfold scan_number. simpl.
    rewrite (scan_frac_stop rest Hrest), (scan_exp_stop rest Hrest).
    reflexivity.
  - pose proof (to_uint_normal p) as Hn.
    unfold scan_number.
    replace (match NilEmpty.string_of_uint (Pos.to_uint p) ++ rest with
             | String "-" r => (true, r)
             | _ => (false, NilEmpty.string_of_uint (Pos.to_uint p) ++ rest)
             end)
      with (false, NilEmpty.string_of_uint (Pos.to_uint p) ++ rest).
    2:{ destruct (Pos.to_uint p); simpl in *; try contradiction;
        reflexivity. }
    rewrite (scan_int_part_uint _ rest Hn Hrest).
    rewrite (scan_frac_stop rest Hrest), (scan_exp_stop rest Hrest).
    simpl. now rewrite int_of_digits_uint, Hz.
  - pose proof (to_uint_normal p) as Hn.
    unfold scan_number.
    rewrite (scan_int_part_uint _ rest Hn Hrest).
    rewrite (scan_frac_stop rest Hrest), (scan_exp_stop rest Hrest).
    simpl. rewrite int_of_digits_uint.
    now rewrite Hz.
Qed.

(** *** First characters *)

Lemma numeric_value_head (c : ascii) :
  numeric_head c = true -> value_head c = true.
Proof.
  unfold numeric_head, value_head.
  destruct (is_digit c); simpl; auto.
  destruct (c =? "-")%char; simpl; auto.
  intros H. discriminate H.
Qed.

Lemma uint_head (u : Decimal.uint) :
  u <> Decimal.Nil -> starts_with is_digit (NilEmpty.string_of_uint u).
Proof.
  destruct u; try congruence; intros _; eexists; eexists;
    (split; [reflexivity | reflexivity]).
Qed.

Lemma encode_int_head (z : Z) : starts_with numeric_head (encode_int z).
Proof.
  unfold encode_int. destruct z as [|p|p]; simpl.
  - eexists. eexists. split; reflexivity.
  - destruct (uint_head (Pos.to_uint p)) as [c [r [E Hc]]].
    { apply DecimalPos.Unsigned.to_uint_nonnil. }
    exists c, r. split; auto. unfold numeric_head. now rewrite Hc.
  - eexists. eexists. split; reflexivity.
Qed.

Lemma encode_head (lvl : nat) (v : pyval) :
  starts_with value_head (encode lvl v).
Proof.
  destruct v as [|[|]|z|s|[|x l]|[|[k x] d]]; simpl;
    try (eexists; eexists; split; reflexivity).
  destruct (encode_int_head z) as [c [r [E Hc]]].
  exists c, r. split; auto. now apply numeric_value_head.
Qed.

Lemma starts_with_append (p : ascii -> bool) (s t : string) :
  starts_with p s -> starts_with p (s ++ t).
Proof.
  intros [c [r [-> Hc]]]. exists c, (r ++ t). split; auto.
Qed.

Lemma skip_ws_value (s : string) :
  starts_with value_head s -> skip_ws s = s.
Proof.
  intros [c [r [-> Hc]]].
  destruct c as [[|] [|] [|] [|] [|] [|] [|] [|]];
    try discriminate Hc; reflexivity.
Qed.

Lemma skip_ws_spaces (n : nat) (s : string) :
  skip_ws (spaces n ++ s) = skip_ws s.
Proof.
  induction n as [|n IH]; simpl; auto.
Qed.

Lemma skip_ws_newline_indent (lvl : nat) (s : string) :
  skip_ws (newline_indent lvl ++ s) = skip_ws s.
Proof.
  unfold newline_indent. simpl. apply skip_ws_spaces.
Qed.

(** *** Values that are not containers *)

Lemma scan_value_numeric (fuel : nat) (c : ascii) (r : string) :
  numeric_head c = true ->
  scan_value (S fuel) (String c r) =
    match scan_number (String c r) with
    | Some (NInt z, rest) => Some (PInt z, false, rest)
    | Some (NFloat, rest) => Some (PNone, true, rest)
    | None => scan_constant (String c r)
    end.
Proof.
  destruct c as [[|] [|] [|] [|] [|] [|] [|] [|]];
    intros H; try discriminate H; reflexivity.
Qed.

Lemma scan_value_int (fuel : nat) (z : Z) (rest : string) :
  stops_number rest = true ->
  scan_value (S fuel) (encode_int z ++ rest) = Some (PInt z, false, rest).
Proof.
  intros Hrest.
  pose proof (scan_number_int z rest Hrest) as Hn.
  destruct (encode_int_head z) as [c [r [E Hc]]].
  rewrite E in *.
  change (String c r ++ rest) with (String c (r ++ rest)) in *.
  rewrite (scan_value_numeric fuel c (r ++ rest) Hc).
  now rewrite Hn.
Qed.

Lemma scan_value_str (fuel : nat) (s rest : string) :
  scan_value (S fuel) (encode_str s ++ rest) = Some (PStr s, false, rest).
Proof.
  rewrite encode_str_append.
  change (scan_value (S fuel) (String dquote (escape s ++ String dquote rest)))
    with (match scanstring (escape s ++ String dquote rest) with
          | Some (t, x, rest') => Some (PStr t, x, rest')
          | None => None
          end).
  now rewrite scanstring_escape.
Qed.

(** *** Dictionaries built from distinct keys *)

Lemma distinct_middle (l1 l2 : list string) (k : string) :
  distinct (l1 ++ k :: l2) = true -> existsb (String.eqb k) l1 = false.
Proof.
  induction l1 as [|a l1 IH]; simpl; auto.
  intros H. apply andb_true_iff in H as [Ha Hd].
  rewrite (IH Hd), orb_false_r.
  apply negb_true_iff in Ha. rewrite existsb_app in Ha.
  apply orb_false_iff in Ha as [_ Ha]. simpl in Ha.
  apply orb_false_iff in Ha as [Ha _]. now rewrite String.eqb_sym.
Qed.

Lemma dict_set_fresh (d : dict) (k : string) (v : pyval) :
  existsb (String.eqb k) (map fst d) = false ->
  dict_set d k v = (d ++ [(k, v)])%list.
Proof.
  induction d as [|[k' v'] d IH]; simpl; auto.
  intros H. apply orb_false_iff in H as [Hk Hd].
  rewrite String.eqb_sym, Hk. now rewrite IH.
Qed.

Lemma fold_dict_set_distinct (ps acc : list (string * pyval)) :
  distinct (map fst acc ++ map fst ps) = true ->
  fold_left (fun d kv => dict_set d (fst kv) (snd kv)) ps acc
  = (acc ++ ps)%list.
Proof.
  revert acc. induction ps as [|[k v] ps IH]; intros acc H; simpl.
  - now rewrite List.app_nil_r.
  - simpl in H. rewrite dict_set_fresh by (eapply distinct_middle; eauto).
    rewrite IH.
    + now rewrite <- List.app_assoc.
    + rewrite List.map_app. simpl. now rewrite <- List.app_assoc.
Qed.

Lemma dict_of_pairs_distinct (d : dict) :
  distinct (map fst d) = true -> dict_of_pairs d = d.
Proof.
  intros H. unfold dict_of_pairs.
  now rewrite fold_dict_set_distinct.
Qed.

(** *** Values *)

Lemma size_pos (v : pyval) : (1 <= size v)%nat.
Proof. destruct v; simpl; lia. Qed.

Lemma scan_value_array (fuel : nat) (s t : string) :
  skip_ws s = t -> starts_with value_head t ->
  scan_value (S fuel) (String "[" s) =
    match scan_elements fuel t with
    | Some (l, x, rest) => Some (PList l, x, rest)
    | None => None
    end.
Proof.
  intros E [c [r [-> H]]]. simpl. rewrite E.
  destruct c as [[|] [|] [|] [|] [|] [|] [|] [|]];
    try discriminate H; reflexivity.
Qed.

Lemma scan_value_object (fuel : nat) (s k t : string) :
  skip_ws s = encode_str k ++ t ->
  scan_value (S fuel) (String "{" s) =
    match scan_members fuel (encode_str k ++ t) with
    | Some (ps, x, rest) => Some (PDict (dict_of_pairs ps), x, rest)
    | None => None
    end.
Proof.
  intros E. simpl. rewrite E. reflexivity.
Qed.

Lemma stops_number_newline_indent (lvl : nat) (s : string) :
  stops_number (newline_indent lvl ++ s) = true.
Proof. reflexivity. Qed.

Lemma encode_more_elements_cons enc sep (y : pyval) (l : list pyval) :
  encode_more_elements enc sep (y :: l)
  = sep ++ enc y ++ encode_more_elements enc sep l.
Proof. reflexivity. Qed.

Lemma encode_more_members_cons enc sep (k : string) (y : pyval) (d : dict) :
  encode_more_members enc sep ((k, y) :: d)
  = sep ++ encode_str k ++ ": " ++ enc y ++ encode_more_members enc sep d.
Proof. reflexivity. Qed.

Section Containers.

Variable n : nat.
Hypothesis IH : reads_back n.

Lemma scan_elements_encode (lvl : nat) (l : list pyval) :
  forall x fuel rest,
    (elements_size (x :: l) <= n)%nat ->
    forallb well_formed (x :: l) = true ->
    (elements_size (x :: l) < fuel)%nat ->
    scan_elements fuel
      (encode (S lvl) x
       ++ encode_more_elements (encode (S lvl))
            ("," ++ newline_indent (S lvl)) l
       ++ newline_indent lvl ++ "]" ++ rest)
    = Some (x :: l, false, rest).
Proof.
  induction l as [|y l IHl]; intros x fuel rest Hn Hwf Hfuel;
    (destruct fuel as [|fuel]; [lia|]);
    unfold elements_size in *; simpl in Hn, Hwf, Hfuel;
    apply andb_true_iff in Hwf as [Hx Hl].
  - simpl encode_more_elements.
    change (scan_elements (S fuel) ?s)
      with (match scan_value fuel s with
            | Some (v, x, rest) =>
                match skip_ws rest with
                | String "]" rest' => Some ([v], x, rest')
                | String "," rest' =>
                    match scan_elements fuel (skip_ws rest') with
                    | Some (l, y, rest'') => Some (v :: l, x || y, rest'')
                    | None => None
                    end
                | _ => None
                end
            | None => None
            end).
    rewrite (IH x) by (auto; lia).
    change ("" ++ newline_indent lvl ++ "]" ++ rest)
      with (newline_indent lvl ++ "]" ++ rest).
    rewrite skip_ws_newline_indent. reflexivity.
  - change (scan_elements (S fuel) ?s)
      with (match scan_value fuel s with
            | Some (v, x, rest) =>
                match skip_ws rest with
                | String "]" rest' => Some ([v], x, rest')
                | String "," rest' =>
                    match scan_elements fuel (skip_ws rest') with
                    | Some (l, y, rest'') => Some (v :: l, x || y, rest'')
                    | None => None
                    end
                | _ => None
                end
            | None => None
            end).
    rewrite (IH x) by (auto; lia).
    rewrite encode_more_elements_cons, !append_assoc.
    change (skip_ws ("," ++ ?s)) with (String "," s).
    cbv beta iota.
    rewrite skip_ws_newline_indent.
    rewrite skip_ws_value
      by (apply starts_with_append, encode_head).
    rewrite IHl; auto.
    + simpl. lia.
    + simpl. lia.
Qed.

Lemma scan_members_encode (lvl : nat) (d : dict) :
  forall k x fuel rest,
    (members_size ((k, x) :: d) <= n)%nat ->
    forallb (fun kv => well_formed (snd kv)) ((k, x) :: d) = true ->
    (members_size ((k, x) :: d) < fuel)%nat ->
    scan_members fuel
      (encode_str k ++ ": " ++ encode (S lvl) x
       ++ encode_more_members (encode (S lvl))
            ("," ++ newline_indent (S lvl)) d
       ++ newline_indent lvl ++ "}" ++ rest)
    = Some ((k, x) :: d, false, rest).
Proof.
  induction d as [|[k' y] d IHd]; intros k x fuel rest Hn Hwf Hfuel;
    (destruct fuel as [|fuel]; [lia|]);
    unfold members_size in *; simpl in Hn, Hwf, Hfuel;
    apply andb_true_iff in Hwf as [Hx Hd];
    rewrite encode_str_append;
    change (scan_members (S fuel) (String dquote ?r))
      with (match scanstring r with
            | Some (k, x, rest) =>
                match skip_ws rest with
                | String ":" rest1 =>
                    match scan_value fuel (skip_ws rest1) with
                    | Some (v, y, rest2) =>
                        match skip_ws rest2 with
                        | String "}" rest3 => Some ([(k, v)], x || y, rest3)
                        | String "," rest3 =>
                            match scan_members fuel (skip_ws rest3) with
                            | Some (ps, z, rest4) =>
                                Some ((k, v) :: ps, x || y || z, rest4)
                            | None => None
                            end
                        | _ => None
                        end
                    | None => None
                    end
                | _ => None
                end
            | None => None
            end);
    rewrite scanstring_escape;
    change (skip_ws (": " ++ ?s)) with (String ":" (String " " s));
    cbv beta iota;
    change (skip_ws (String " " ?s)) with (skip_ws s);
    rewrite skip_ws_value by (apply starts_with_append, encode_head);
    rewrite (IH x) by (auto; lia).
  - simpl encode_more_members.
    change ("" ++ newline_indent lvl ++ "}" ++ rest)
      with (newline_indent lvl ++ "}" ++ rest).
    rewrite skip_ws_newline_indent. reflexivity.
  - rewrite encode_more_members_cons, !append_assoc.
    change (skip_ws ("," ++ ?s)) with (String "," s).
    cbv beta iota.
    rewrite skip_ws_newline_indent.
    rewrite skip_ws_value
      by (apply starts_with_append; exact (encode_head 0 (PStr k'))).
    rewrite IHd; auto.
    + simpl. lia.
    + simpl. lia.
Qed.

End Containers.

Lemma encode_list_cons (lvl : nat) (x : pyval) (l : list pyval) :
  encode lvl (PList (x :: l))
  = "[" ++ newline_indent (S lvl) ++ encode (S lvl) x
    ++ encode_more_elements (encode (S lvl))
         ("," ++ newline_indent (S lvl)) l
    ++ newline_indent lvl ++ "]".
Proof. reflexivity. Qed.

Lemma encode_dict_cons (lvl : nat) (k : string) (x : pyval) (d : dict) :
  encode lvl (PDict ((k, x) :: d))
  = "{" ++ newline_indent (S lvl) ++ encode_str k ++ ": "
    ++ encode (S lvl) x
    ++ encode_more_members (encode (S lvl))
         ("," ++ newline_indent (S lvl)) d
    ++ newline_indent lvl ++ "}".
Proof. reflexivity. Qed.

(** The decoder reads the text of every well-formed value back, given
    fuel beyond the size of the value. *)
Lemma reads_back_all (n : nat) : reads_back n.
Proof.
  induction n as [|n IHn]; intros v Hsize lvl rest fuel Hwf Hfuel Hrest.
  { pose proof (size_pos v). lia. }
  destruct fuel as [|fuel]; [lia|].
  destruct v as [|[|]|z|s|[|x l]|[|[k x] d]]; try reflexivity.
  - now apply scan_value_int.
  - apply scan_value_str.
  - rewrite encode_list_cons, !append_assoc.
    change ("[" ++ ?s) with (String "[" s).
    simpl in Hsize, Hfuel, Hwf.
    erewrite scan_value_array.
    2:{ rewrite skip_ws_newline_indent.
        apply skip_ws_value, starts_with_append, encode_head. }
    2:{ apply starts_with_append, encode_head. }
    rewrite (scan_elements_encode n IHn lvl l x fuel rest); auto.
    + unfold elements_size. simpl. lia.
    + unfold elements_size. simpl. lia.
  - rewrite encode_dict_cons, !append_assoc.
    change ("{" ++ ?s) with (String "{" s).
    simpl in Hsize, Hfuel, Hwf.
    apply andb_true_iff in Hwf as [Hkeys Hwf].
    erewrite scan_value_object.
    2:{ rewrite skip_ws_newline_indent.
        apply skip_ws_value, starts_with_append.
        exact (encode_head 0 (PStr k)). }
    rewrite (scan_members_encode n IHn lvl d k x fuel rest); auto.
    + rewrite dict_of_pairs_distinct; auto.
    + unfold members_size. simpl. lia.
    + unfold members_size. simpl. lia.
Qed.

(** The text of a value is at least as long as the value is large. *)
Lemma size_le_length (n : nat) :
  forall v lvl, (size v <= n)%nat ->
    (size v <= String.length (encode lvl v))%nat.
Proof.
  induction n as [|n IHn]; intros v lvl Hsize.
  { pose proof (size_pos v). lia. }
  assert (Hmore_l : forall l lvl sep,
             (elements_size l <= n)%nat ->
             (elements_size l
              <= String.length
                   (encode_more_elements (encode lvl) (String "," sep) l))%nat).
  { unfold elements_size.
    induction l as [|y l IHl]; intros lvl' sep Hl; simpl in *; [lia|].
    rewrite !length_append.
    specialize (IHl lvl' sep). specialize (IHn y lvl'). lia. }
  assert (Hmore_d : forall d lvl sep,
             (members_size d <= n)%nat ->
             (members_size d
              <= String.length
                   (encode_more_members (encode lvl) (String "," sep) d))%nat).
  { unfold members_size.
    induction d as [|[k y] d IHd]; intros lvl' sep Hd; simpl in *; [lia|].
    repeat (rewrite length_append || (progress simpl)).
    specialize (IHd lvl' sep). specialize (IHn y lvl'). lia. }
  destruct v as [|[|]|z|s|[|x l]|[|[k x] d]]; simpl; try lia.
  - destruct (encode_int_head z) as [c [r [E _]]]. rewrite E. simpl. lia.
  - simpl in Hsize. rewrite !length_append.
    specialize (Hmore_l l (S lvl) (newline_indent (S lvl))).
    specialize (IHn x (S lvl)).
    unfold elements_size in Hmore_l. lia.
  - simpl in Hsize. repeat (rewrite length_append || (progress simpl)).
    specialize (Hmore_d d (S lvl) (newline_indent (S lvl))).
    specialize (IHn x (S lvl)).
    unfold members_size in Hmore_d. lia.
Qed.

(** Decoding the text of a well-formed value gives the value back. *)
Theorem json_loads_dumps (v : pyval) :
  well_formed v = true -> json_loads (json_dumps v) = Decoded v.
Proof.
  intros Hwf. unfold json_loads, json_dumps.
  rewrite skip_ws_value by apply encode_head.
  pose proof (size_le_length (size v) v O (Nat.le_refl _)) as Hlen.
  pose proof (reads_back_all (size v) v (Nat.le_refl _) O ""
                (2 * String.length (encode 0 v) + 2)%nat Hwf) as H.
  rewrite append_nil_r in H.
  rewrite H; [reflexivity | lia | reflexivity].
Qed.

(** ** Saving, then loading *)



(** ** Dictionaries never hold a key twice *)

Lemma existsb_dict_set (d : dict) (k k' : string) (v : pyval) :
  existsb (String.eqb k') (map fst (dict_set d k v))
  = existsb (String.eqb k') (map fst d) || (k' =? k)%string.
Proof.
  induction d as [|[k0 v0] d IH]; simpl.
  - now rewrite orb_false_r.
  - destruct (k0 =? k)%string eqn:E; simpl.
    + apply String.eqb_eq in E. subst k0.
      destruct (k' =? k)%string; simpl; auto. now rewrite orb_false_r.
    + rewrite IH. now rewrite orb_assoc.
Qed.

Lemma distinct_dict_set (d : dict) (k : string) (v : pyval) :
  distinct (map fst d) = true -> distinct (map fst (dict_set d k v)) = true.
Proof.
  induction d as [|[k0 v0] d IH]; simpl; auto.
  intros H. apply andb_true_iff in H as [H0 Hd].
  destruct (k0 =? k)%string eqn:E; simpl.
  - now rewrite H0, Hd.
  - rewrite (IH Hd), existsb_dict_set, E, orb_false_r. now rewrite H0.
Qed.

Lemma existsb_dict_del (d : dict) (k k' : string) :
  existsb (String.eqb k') (map fst d) = false ->
  existsb (String.eqb k') (map fst (dict_del d k)) = false.
Proof.
  induction d as [|[k0 v0] d IH]; simpl; auto.
  intros H. apply orb_false_iff in H as [H0 Hd].
  destruct (k0 =? k)%string; simpl; auto.
  now rewrite H0, IH.
Qed.

Lemma distinct_dict_del (d : dict) (k : string) :
  distinct (map fst d) = true -> distinct (map fst (dict_del d k)) = true.
Proof.
  induction d as [|[k0 v0] d IH]; simpl; auto.
  intros H. apply andb_true_iff in H as [H0 Hd].
  destruct (k0 =? k)%string; simpl; auto.
  apply negb_true_iff in H0.
  now rewrite (existsb_dict_del d k k0 H0), IH.
Qed.

Lemma well_formed_dict_set (d : dict) (k : string) (v : pyval) :
  well_formed (PDict d) = true -> well_formed v = true ->
  well_formed (PDict (dict_set d k v)) = true.
Proof.
  simpl. intros H Hv. apply andb_true_iff in H as [Hk Hd].
  rewrite distinct_dict_set by assumption. simpl.
  now apply (forallb_dict_set (fun kv => well_formed (snd kv))).
Qed.

Lemma well_formed_dict_del (d : dict) (k : string) :
  well_formed (PDict d) = true -> well_formed (PDict (dict_del d k)) = true.
Proof.
  simpl. intros H. apply andb_true_iff in H as [Hk Hd].
  rewrite distinct_dict_del by assumption. simpl.
  now apply (forallb_dict_del (fun kv => well_formed (snd kv))).
Qed.

Lemma well_formed_dict_of_pairs (ps : list (string * pyval)) :
  forallb (fun kv => well_formed (snd kv)) ps = true ->
  well_formed (PDict (dict_of_pairs ps)) = true.
Proof.
  unfold dict_of_pairs.
  assert (G : forall acc,
             well_formed (PDict acc) = true ->
             forallb (fun kv => well_formed (snd kv)) ps = true ->
             well_formed
               (PDict (fold_left (fun d kv => dict_set d (fst kv) (snd kv))
                         ps acc)) = true).
  { induction ps as [|[k v] ps IH]; intros acc Hacc Hps; simpl in *; auto.
    apply andb_true_iff in Hps as [Hv Hps].
    apply IH; auto. now apply well_formed_dict_set. }
  now apply G.
Qed.

Lemma scan_atom_well_formed (s : string) v x r :
  scan_atom s = Some (v, x, r) -> well_formed v = true.
Proof.
  unfold scan_atom, scan_constant.
  repeat match goal with
         | |- context [match strip_prefix ?a ?b with _ => _ end] =>
             destruct (strip_prefix a b)
         | |- context [match scan_number ?a with _ => _ end] =>
             destruct (scan_number a) as [[[z|] rest]|]
         end;
    intros [= <- _ _]; reflexivity.
Qed.

(** Whatever the decoder builds is well formed. *)
Lemma scan_well_formed (fuel : nat) :
  (forall s v x r,
      scan_value fuel s = Some (v, x, r) -> well_formed v = true)
  /\ (forall s l x r,
        scan_elements fuel s = Some (l, x, r) ->
        forallb well_formed l = true)
  /\ (forall s ps x r,
        scan_members fuel s = Some (ps, x, r) ->
        forallb (fun kv => well_formed (snd kv)) ps = true).
Proof.
  induction fuel as [|fuel [IHv [IHe IHm]]].
  { repeat split; intros; discriminate. }
  repeat split.
  - intros s v x r H. destruct s as [|c s]; [discriminate|].
    simpl in H.
    destruct (c =? dquote)%char.
    { destruct (scanstring s) as [[[t y] rest]|]; [|discriminate].
      injection H as <- _ _. reflexivity. }
    destruct (c =? "{")%char.
    { destruct (skip_ws s) as [|[[|] [|] [|] [|] [|] [|] [|] [|]] s'];
        try (injection H as <- _ _; reflexivity);
        match type of H with
        | context [scan_members fuel ?t] =>
            destruct (scan_members fuel t) as [[[ps y] rest]|] eqn:E;
            [|discriminate]
        end;
        injection H as <- _ _;
        apply well_formed_dict_of_pairs; eapply IHm; exact E. }
    destruct (c =? "[")%char.
    { destruct (skip_ws s) as [|[[|] [|] [|] [|] [|] [|] [|] [|]] s'];
        try (injection H as <- _ _; reflexivity);
        match type of H with
        | context [scan_elements fuel ?t] =>
            destruct (scan_elements fuel t) as [[[l y] rest]|] eqn:E;
            [|discriminate]
        end;
        injection H as <- _ _;
        simpl; eapply IHe; exact E. }
    eapply scan_atom_well_formed; exact H.
  - intros s l x r H. simpl in H.
    destruct (scan_value fuel s) as [[[v y] rest]|] eqn:Ev; [|discriminate].
    pose proof (IHv _ _ _ _ Ev) as Hv.
    destruct (skip_ws rest) as [|[[|] [|] [|] [|] [|] [|] [|] [|]] s'];
      try discriminate H.
    + injection H as <- _ _. simpl. now rewrite Hv.
    + destruct (scan_elements fuel (skip_ws s')) as [[[l' z] rest']|] eqn:Ee;
        [|discriminate].
      injection H as <- _ _. simpl. rewrite Hv. eapply IHe; exact Ee.
  - intros s ps x r H. destruct s as [|c s]; [discriminate|].
    simpl in H.
    destruct (c =? dquote)%char; [|discriminate].
    destruct (scanstring s) as [[[k y] rest]|]; [|discriminate].
    destruct (skip_ws rest) as [|[[|] [|] [|] [|] [|] [|] [|] [|]] s1];
      try discriminate H.
    destruct (scan_value fuel (skip_ws s1)) as [[[v z] rest2]|] eqn:Ev;
      [|discriminate].
    pose proof (IHv _ _ _ _ Ev) as Hv.
    destruct (skip_ws rest2) as [|[[|] [|] [|] [|] [|] [|] [|] [|]] s3];
      try discriminate H.
    + injection H as <- _ _. simpl. now rewrite Hv.
    + destruct (scan_members fuel (skip_ws s3)) as [[[ps' t] rest4]|] eqn:Em;
        [|discriminate].
      injection H as <- _ _. simpl. rewrite Hv. eapply IHm; exact Em.
Qed.

Lemma json_loads_well_formed (s : string) (v : pyval) :
  json_loads s = Decoded v -> well_formed v = true.
Proof.
  unfold json_loads.
  destruct (scan_value _ (skip_ws s)) as [[[v' x] rest]|] eqn:E;
    [|discriminate].
  destruct (skip_ws rest); [|discriminate].
  destruct x; [discriminate|].
  intros [= <-]. eapply (proj1 (scan_well_formed _)); exact E.
Qed.

(** ** Every state a manager can reach is well formed *)

Lemma add_item_well_formed (item qty : pyval) (m m' : manager) (w : world) :
  well_formed (stock_data m) = true ->
  manager_of (add_item item qty m w) = Some m' ->
  well_formed (stock_data m') = true.
Proof.
  intros Hwf. unfold add_item.
  destruct (bad_item item) eqn:Hbi; [intros [= <-]; exact Hwf|].
  destruct (bad_qty qty) eqn:Hbq; [intros [= <-]; exact Hwf|].
  destruct (good_item_inv item Hbi) as [name [-> _]].
  step_py. unfold add_int.
  destruct (stock_data m) as [| | | | |d] eqn:Hd;
    try (intros [= <-]; rewrite Hd; exact Hwf).
  simpl.
  destruct (dict_lookup d name) as [v|]; simpl;
    [destruct (as_int v); simpl|];
    intros [= <-]; simpl; try (rewrite Hd; exact Hwf);
    apply well_formed_dict_set; auto.
Qed.

Lemma remove_item_well_formed (item qty : pyval) (m m' : manager)
    (w : world) :
  well_formed (stock_data m) = true ->
  manager_of (remove_item item qty m w) = Some m' ->
  well_formed (stock_data m') = true.
Proof.
  intros Hwf. unfold remove_item.
  destruct (bad_item item) eqn:Hbi; [intros [= <-]; exact Hwf|].
  destruct (bad_qty qty) eqn:Hbq; [intros [= <-]; exact Hwf|].
  destruct (good_item_inv item Hbi) as [name [-> _]].
  step_py. unfold contains, getitem, lt_int, sub_int, setitem, delitem.
  destruct (stock_data m) as [| | |s|l|d] eqn:Hd; simpl;
    try (intros [= <-]; rewrite Hd; exact Hwf).
  { destruct (occurs_in name s); simpl; intros [= <-]; rewrite Hd;
      exact Hwf. }
  { destruct (existsb _ l); simpl; intros [= <-]; rewrite Hd; exact Hwf. }
  unfold dict_mem.
  destruct (dict_lookup d name) as [v|] eqn:Hk; simpl;
    [|intros [= <-]; rewrite Hd; exact Hwf].
  destruct (as_int v) as [z|] eqn:Hv; simpl;
    [|intros [= <-]; rewrite Hd; exact Hwf].
  destruct (z <? int_value qty); simpl;
    [intros [= <-]; rewrite Hd; exact Hwf|].
  rewrite dict_lookup_set_same. simpl. unfold ret.
  destruct (eq_zero (PInt (z - int_value qty))); simpl.
  - intros [= <-]. simpl stock_data.
    apply well_formed_dict_del, well_formed_dict_set; auto.
  - intros [= <-]. simpl stock_data.
    apply well_formed_dict_set; auto.
Qed.

(** Being well formed is a representation invariant: it holds of the
    fresh manager and every call keeps it, so it holds of every inventory
    a program can build. *)
Lemma init_well_formed (path : string) :
  well_formed (stock_data (init path)) = true.
Proof. reflexivity. Qed.

Lemma run_well_formed (c : call) (m m' : manager) (w : world) :
  well_formed (stock_data m) = true ->
  run c m w = Some m' ->
  well_formed (stock_data m') = true.
Proof.
  intros Hwf.
  destruct c as [item qty|item qty|item|file|file| |threshold];
    unfold run.
  - now apply add_item_well_formed.
  - now apply remove_item_well_formed.
  - unfold get_qty. step_py.
    destruct (get_method (stock_data m) item (PInt 0));
      intros [= <-]; exact Hwf.
  - unfold load_data. destruct file as [path|]; unfold bind; simpl;
      unfold try_except, bind, read_text, json_load_text;
      match goal with
      | |- context [files w ?p] =>
          destruct (files w p) as [| |text] eqn:Hf; simpl;
          [intros [= <-]; reflexivity
          |intros [= <-]; exact Hwf
          |destruct (json_loads text) as [v| |] eqn:Hv; simpl;
           [intros [= <-]; exact (json_loads_well_formed text v Hv)
           |intros [= <-]; exact Hwf
           |discriminate]]
      end.
  - unfold save_data. destruct file as [path|]; unfold bind; simpl;
      unfold try_except, bind, get_stock, write_text; simpl;
      match goal with
      | |- context [write_fault w ?p] => destruct (write_fault w p)
      end; intros [= <-]; exact Hwf.
  - rewrite print_data_manager. intros [= <-]; exact Hwf.
  - unfold check_low_items. step_py.
    destruct (items_method (stock_data m)) as [e|its]; simpl;
      [intros [= <-]; exact Hwf|].
    destruct (low_items its threshold); intros [= <-]; exact Hwf.
Qed.

(** ** The decoder never runs out of fuel *)

(** Every scanner consumes part of the text. *)

Lemma skip_ws_length (s : string) :
  (String.length (skip_ws s) <= String.length s)%nat.
Proof.
  induction s as [|c s IH]; simpl; auto.
  destruct (is_ws c); simpl; lia.
Qed.

Lemma push_inv (c : ascii) (x : bool) (r : scanned string) t y rest :
  push c x r = Some (t, y, rest) ->
  exists t' y', r = Some (t', y', rest).
Proof.
  destruct r as [[[t' y'] rest']|]; simpl; [|discriminate].
  intros [= _ _ <-]. eauto.
Qed.

Lemma scanstring_shorter (n : nat) :
  forall s t x rest,
    (String.length s <= n)%nat ->
    scanstring s = Some (t, x, rest) ->
    (String.length rest < String.length s)%nat.
Proof.
  induction n as [|n IH]; intros s t x rest Hn H;
    destruct s as [|c s]; simpl in *; try discriminate; try lia.
  destruct (c =? dquote)%char.
  { injection H as _ _ <-. lia. }
  destruct (c =? bslash)%char.
  - destruct s as [|e s]; [discriminate|].
    destruct (e =? "u")%char.
    + destruct s as [|h1 [|h2 [|h3 [|h4 s]]]]; try discriminate.
      destruct (hex4 h1 h2 h3 h4) as [k|]; [|discriminate].
      destruct (k <? 256)%N;
        apply push_inv in H as [t' [y' H]];
        apply IH in H; simpl in *; lia.
    + destruct (unescape e); [|discriminate].
      apply push_inv in H as [t' [y' H]].
      apply IH in H; simpl in *; lia.
  - destruct (N_of_ascii c <? 32)%N; [discriminate|].
    apply push_inv in H as [t' [y' H]].
    apply IH in H; lia.
Qed.

Lemma strip_prefix_length (lit s rest : string) :
  strip_prefix lit s = Some rest ->
  String.length s = (String.length lit + String.length rest)%nat.
Proof.
  revert s. induction lit as [|a lit IH]; intros s; simpl.
  - now intros [= ->].
  - destruct s as [|b s]; [discriminate|].
    destruct (a =? b)%char; [|discriminate].
    intros H. apply IH in H. simpl. lia.
Qed.

Lemma scan_digits_length (s : string) :
  (String.length (snd (scan_digits s)) <= String.length s)%nat.
Proof.
  induction s as [|c s IH]; simpl; auto.
  destruct (is_digit c); simpl; auto.
  destruct (scan_digits s); simpl in *. lia.
Qed.

Lemma scan_frac_length (s : string) :
  (String.length (snd (scan_frac s)) <= String.length s)%nat.
Proof.
  unfold scan_frac. destruct s as [|c s]; simpl; auto.
  pose proof (scan_digits_length s) as H.
  destruct c as [[|] [|] [|] [|] [|] [|] [|] [|]]; simpl; auto.
  destruct (scan_digits s) as [[|d ds] rest]; simpl in *; lia.
Qed.

Lemma scan_exp_length (s : string) :
  (String.length (snd (scan_exp s)) <= String.length s)%nat.
Proof.
  unfold scan_exp. destruct s as [|e s]; simpl; auto.
  destruct ((e =? "e") || (e =? "E"))%char; simpl; auto.
  destruct s as [|sg s]; simpl; auto.
  pose proof (scan_digits_length s) as H1.
  pose proof (scan_digits_length (String sg s)) as H2.
  destruct ((sg =? "+") || (sg =? "-"))%char.
  - destruct (scan_digits s) as [[|d ds] rest]; simpl in *; lia.
  - destruct (scan_digits (String sg s)) as [[|d ds] rest]; simpl in *; lia.
Qed.

Lemma scan_int_part_shorter (s ds rest : string) :
  scan_int_part s = Some (ds, rest) ->
  (String.length rest < String.length s)%nat.
Proof.
  unfold scan_int_part. destruct s as [|c s]; [discriminate|].
  destruct (is_digit c) eqn:Hc; [|discriminate].
  destruct (c =? "0")%char.
  - intros [= _ <-]. simpl. lia.
  - pose proof (scan_digits_length s) as H.
    simpl. rewrite Hc. destruct (scan_digits s) as [ds' rest'].
    intros [= _ <-]. simpl in *. lia.
Qed.

Lemma scan_number_shorter (s : string) (num : number) (rest : string) :
  scan_number s = Some (num, rest) ->
  (String.length rest < String.length s)%nat.
Proof.
  unfold scan_number.
  assert (G : forall s1,
             match scan_int_part s1 with
             | Some (ds, rest0) =>
                 forall neg,
                   (let (frac, rest1) := scan_frac rest0 in
                    let (exp, rest2) := scan_exp rest1 in
                    if frac || exp then Some (NFloat, rest2)
                    else Some (NInt (if neg : bool
                                     then - int_of_digits ds
                                     else int_of_digits ds), rest0))
                   = Some (num, rest) ->
                   (String.length rest < String.length s1)%nat
             | None => True
             end).
  { intros s1. destruct (scan_int_part s1) as [[ds rest0]|] eqn:E; auto.
    apply scan_int_part_shorter in E. intros neg.
    pose proof (scan_frac_length rest0) as Hf.
    destruct (scan_frac rest0) as [frac rest1]. simpl in Hf.
    pose proof (scan_exp_length rest1) as He.
    destruct (scan_exp rest1) as [exp rest2]. simpl in He.
    destruct (frac || exp); intros [= _ <-]; lia. }
  destruct s as [|c s]; [discriminate|].
  destruct c as [[|] [|] [|] [|] [|] [|] [|] [|]];
    match goal with
    | |- match scan_int_part ?t with _ => _ end = _ -> _ =>
        specialize (G t); destruct (scan_int_part t) as [[ds rest0]|];
        [intros H;
         first [pose proof (G true H) as L | pose proof (G false H) as L];
         simpl in *; lia
        | discriminate]
    end.
Qed.

Lemma scan_atom_shorter (s : string) v x rest :
  scan_atom s = Some (v, x, rest) ->
  (String.length rest < String.length s)%nat.
Proof.
  unfold scan_atom, scan_constant.
  repeat match goal with
         | |- context [match strip_prefix ?a ?b with _ => _ end] =>
             let E := fresh "E" in
             destruct (strip_prefix a b) eqn:E;
             [apply strip_prefix_length in E; simpl in E;
              intros [= _ _ <-]; lia|]
         | |- context [match scan_number ?a with _ => _ end] =>
             let E := fresh "E" in
             destruct (scan_number a) as [[[z|] rest0]|] eqn:E;
             [apply scan_number_shorter in E; intros [= _ _ <-]; lia
             |apply scan_number_shorter in E; intros [= _ _ <-]; lia
             |]
         end.
  discriminate.
Qed.

Lemma scan_shorter (fuel : nat) :
  (forall s v x r,
      scan_value fuel s = Some (v, x, r) ->
      (String.length r < String.length s)%nat)
  /\ (forall s l x r,
        scan_elements fuel s = Some (l, x, r) ->
        (String.length r < String.length s)%nat)
  /\ (forall s ps x r,
        scan_members fuel s = Some (ps, x, r) ->
        (String.length r < String.length s)%nat).
Proof.
  induction fuel as [|fuel [IHv [IHe IHm]]].
  { repeat split; intros; discriminate. }
  repeat split.
  - intros s v x r H. destruct s as [|c s]; [discriminate|].
    simpl in H.
    destruct (c =? dquote)%char.
    { destruct (scanstring s) as [[[t y] rest]|] eqn:E; [|discriminate].
      apply (scanstring_shorter _ _ _ _ _ (Nat.le_refl _)) in E.
      injection H as _ _ <-. simpl. lia. }
    pose proof (skip_ws_length s) as Hws.
    destruct (c =? "{")%char.
    { destruct (skip_ws s) as [|[[|] [|] [|] [|] [|] [|] [|] [|]] s'];
        try (injection H as _ _ <-; simpl in *; lia);
        try discriminate H;
        match type of H with
        | context [scan_members fuel ?t] =>
            destruct (scan_members fuel t) as [[[ps y] rest]|] eqn:E;
            [|discriminate]
        end;
        injection H as _ _ <-; apply IHm in E; simpl in *; lia. }
    destruct (c =? "[")%char.
    { destruct (skip_ws s) as [|[[|] [|] [|] [|] [|] [|] [|] [|]] s'];
        try (injection H as _ _ <-; simpl in *; lia);
        try discriminate H;
        match type of H with
        | context [scan_elements fuel ?t] =>
            destruct (scan_elements fuel t) as [[[l y] rest]|] eqn:E;
            [|discriminate]
        end;
        injection H as _ _ <-; apply IHe in E; simpl in *; lia. }
    now apply scan_atom_shorter in H.
  - intros s l x r H. simpl in H.
    destruct (scan_value fuel s) as [[[v y] rest]|] eqn:Ev; [|discriminate].
    apply IHv in Ev.
    pose proof (skip_ws_length rest) as Hws.
    destruct (skip_ws rest) as [|[[|] [|] [|] [|] [|] [|] [|] [|]] s'];
      try discriminate H.
    + injection H as _ _ <-. simpl in *. lia.
    + pose proof (skip_ws_length s') as Hws'.
      destruct (scan_elements fuel (skip_ws s')) as [[[l' z] rest']|] eqn:Ee;
        [|discriminate].
      injection H as _ _ <-. apply IHe in Ee. simpl in *. lia.
  - intros s ps x r H. destruct s as [|c s]; [discriminate|].
    simpl in H.
    destruct (c =? dquote)%char; [|discriminate].
    destruct (scanstring s) as [[[k y] rest]|] eqn:Es; [|discriminate].
    apply (scanstring_shorter _ _ _ _ _ (Nat.le_refl _)) in Es.
    pose proof (skip_ws_length rest) as Hws.
    destruct (skip_ws rest) as [|[[|] [|] [|] [|] [|] [|] [|] [|]] s1];
      try discriminate H.
    pose proof (skip_ws_length s1) as Hws1.
    destruct (scan_value fuel (skip_ws s1)) as [[[v z] rest2]|] eqn:Ev;
      [|discriminate].
    apply IHv in Ev.
    pose proof (skip_ws_length rest2) as Hws2.
    destruct (skip_ws rest2) as [|[[|] [|] [|] [|] [|] [|] [|] [|]] s3];
      try discriminate H.
    + injection H as _ _ <-. simpl in *. lia.
    + pose proof (skip_ws_length s3) as Hws3.
      destruct (scan_members fuel (skip_ws s3)) as [[[ps' t] rest4]|] eqn:Em;
        [|discriminate].
      injection H as _ _ <-. apply IHm in Em. simpl in *. lia.
Qed.

(** Fuel beyond twice the length of the text makes no difference: the
    amount [json_loads] hands out is as good as any larger one, so a
    document is never taken for malformed for want of fuel. *)
Lemma scan_fuel_enough (f1 : nat) :
  forall f2,
    (forall s,
        (2 * String.length s + 2 <= f1)%nat ->
        (2 * String.length s + 2 <= f2)%nat ->
        scan_value f1 s = scan_value f2 s)
    /\ (forall s,
          (2 * String.length s + 3 <= f1)%nat ->
          (2 * String.length s + 3 <= f2)%nat ->
          scan_elements f1 s = scan_elements f2 s)
    /\ (forall s,
          (2 * String.length s + 3 <= f1)%nat ->
          (2 * String.length s + 3 <= f2)%nat ->
          scan_members f1 s = scan_members f2 s).
Proof.
  induction f1 as [|f1 IH]; intros f2.
  { repeat split; intros; lia. }
  destruct f2 as [|f2]; [repeat split; intros; lia|].
  destruct (IH f2) as [IHv [IHe IHm]]. clear IH.
  destruct (scan_shorter f2) as [Sv [Se Sm]].
  repeat split.
  - intros s H1 H2. destruct s as [|c s]; [reflexivity|].
    simpl. simpl in H1, H2.
    destruct (c =? dquote)%char; [reflexivity|].
    pose proof (skip_ws_length s) as Hws.
    destruct (c =? "{")%char.
    { destruct (skip_ws s) as [|[[|] [|] [|] [|] [|] [|] [|] [|]] s'];
        try reflexivity;
        rewrite IHm by (simpl in *; lia); reflexivity. }
    destruct (c =? "[")%char.
    { destruct (skip_ws s) as [|[[|] [|] [|] [|] [|] [|] [|] [|]] s'];
        try reflexivity;
        rewrite IHe by (simpl in *; lia); reflexivity. }
    reflexivity.
  - intros s H1 H2. simpl.
    rewrite IHv by lia.
    destruct (scan_value f2 s) as [[[v y] rest]|] eqn:Ev; [|reflexivity].
    apply Sv in Ev.
    pose proof (skip_ws_length rest) as Hws.
    destruct (skip_ws rest) as [|[[|] [|] [|] [|] [|] [|] [|] [|]] s'];
      try reflexivity.
    pose proof (skip_ws_length s') as Hws'.
    rewrite IHe by (simpl in *; lia). reflexivity.
  - intros s H1 H2. destruct s as [|c s]; [reflexivity|].
    simpl. simpl in H1, H2.
    destruct (c =? dquote)%char; [|reflexivity].
    destruct (scanstring s) as [[[k y] rest]|] eqn:Es; [|reflexivity].
    apply (scanstring_shorter _ _ _ _ _ (Nat.le_refl _)) in Es.
    pose proof (skip_ws_length rest) as Hws.
    destruct (skip_ws rest) as [|[[|] [|] [|] [|] [|] [|] [|] [|]] s1];
      try reflexivity.
    pose proof (skip_ws_length s1) as Hws1.
    rewrite IHv by (simpl in *; lia).
    destruct (scan_value f2 (skip_ws s1)) as [[[v z] rest2]|] eqn:Ev;
      [|reflexivity].
    apply Sv in Ev.
    pose proof (skip_ws_length rest2) as Hws2.
    destruct (skip_ws rest2) as [|[[|] [|] [|] [|] [|] [|] [|] [|]] s3];
      try reflexivity.
    pose proof (skip_ws_length s3) as Hws3.
    rewrite IHm by (simpl in *; lia). reflexivity.
Qed.

Lemma json_loads_fuel (s : string) (fuel : nat) :
  (2 * String.length s + 2 <= fuel)%nat ->
  scan_value fuel (skip_ws s)
  = scan_value (2 * String.length s + 2) (skip_ws s).
Proof.
  intros H. pose proof (skip_ws_length s) as Hws.
  apply (proj1 (scan_fuel_enough fuel (2 * String.length s + 2))); lia.
Qed.

(* ================================================================== *)
(** * Further properties of the methods *)
(* ================================================================== *)

(** ** Removing part of a stock *)

Lemma dict_keys_set_present (d : dict) k v v' :
  dict_lookup d k = Some v' -> dict_keys (dict_set d k v) = dict_keys d.
Proof.
  intros H. rewrite dict_keys_set. unfold dict_mem. now rewrite H.
Qed.

Lemma remove_item_runs (m : manager) (w : world) (d : dict)
    (name : string) (v qty : pyval) (cur : Z) :
  stock_data m = PDict d ->
  is_nonempty_str (PStr name) = true ->
  is_positive_int qty = true ->
  dict_lookup d name = Some v ->
  as_int v = Some cur ->
  int_value qty < cur ->
  remove_item (PStr name) qty m w =
    Done tt
      (mkManager (PDict (dict_set d name (PInt (cur - int_value qty))))
         (default_file m)
         (logs m ++ [Removed (clock w (reads w)) qty name]))
      (emit (LogLine (Removed (clock w (reads w)) qty name)) (tick w)).
Proof.
  intros Hd Hname Hqty Hk Hv Hlt.
  assert (Hbi : bad_item (PStr name) = false)
    by (rewrite bad_item_spec, Hname; reflexivity).
  assert (Hbq : bad_qty qty = false)
    by (rewrite bad_qty_spec, Hqty; reflexivity).
  unfold remove_item. rewrite Hbi, Hbq. step_py.
  rewrite Hd. simpl. unfold dict_mem. rewrite Hk. simpl.
  unfold lt_int, sub_int. rewrite Hv. simpl.
  destruct (Z.ltb_spec cur (int_value qty)) as [Hc|Hc]; [lia|]. simpl.
  rewrite dict_lookup_set_same. simpl. unfold ret.
  change (eq_zero (PInt (cur - int_value qty)))
    with (cur - int_value qty =? 0).
  destruct (Z.eqb_spec (cur - int_value qty) 0) as [Hz|Hz]; [lia|].
  reflexivity.
Qed.



(** ** The place of an item in the inventory *)



(** ** Adding and taking back *)

Lemma dict_set_set (d : dict) k v v' :
  dict_set (dict_set d k v) k v' = dict_set d k v'.
Proof.
  induction d as [|[k0 v0] d IH]; simpl.
  - now rewrite String.eqb_refl.
  - destruct (k0 =? k)%string eqn:E; simpl; rewrite E; auto.
    now rewrite IH.
Qed.

Lemma dict_del_absent (d : dict) k :
  dict_lookup d k = None -> dict_del d k = d.
Proof.
  induction d as [|[k0 v0] d IH]; simpl; auto.
  destruct (k0 =? k)%string; [discriminate|].
  intros H. now rewrite IH.
Qed.

Lemma quantity_set_same (d : dict) k z :
  quantity (dict_set d k (PInt z)) k = z.
Proof. unfold quantity. now rewrite dict_lookup_set_same. Qed.

Lemma quantity_set_other (d : dict) k k' v :
  k' <> k -> quantity (dict_set d k v) k' = quantity d k'.
Proof.
  intros H. unfold quantity. now rewrite dict_lookup_set_other.
Qed.



(** ** The report *)

Lemma for_each_print_lines (its : list (string * pyval)) (m : manager)
    (w : world) :
  for_each its (fun kv => print (ReportLine (fst kv) (snd kv))) m w
  = Done tt m (emit_all (report_lines its) w).
Proof.
  revert w. induction its as [|kv its IH]; intros w; simpl.
  - unfold ret, emit_all. simpl. rewrite List.app_nil_r. now destruct w.
  - unfold bind, print. rewrite IH. unfold emit_all, emit. simpl.
    now rewrite <- List.app_assoc.
Qed.



(** ** Loading and saving *)




Lemma read_only_run (c : call) (m : manager) (w : world) :
  read_only c = true -> run c m w = Some m.
Proof.
  destruct c as [item qty|item qty|item|file|file| |threshold];
    try discriminate; intros _; unfold run.
  - unfold get_qty. step_py.
    now destruct (get_method (stock_data m) item (PInt 0)).
  - unfold save_data. destruct file as [path|]; unfold bind; simpl;
      unfold try_except, bind, get_stock, write_text; simpl;
      match goal with
      | |- context [write_fault w ?p] => destruct (write_fault w p)
      end; reflexivity.
  - apply print_data_manager.
  - unfold check_low_items. step_py.
    destruct (items_method (stock_data m)) as [e|its]; simpl; auto.
    now destruct (low_items its threshold).
Qed.

(** X7. [get_qty], [save_data], [print_data] and [check_low_items] never
    change the manager, in any state and whatever they are given, also
    when they raise. *)
Theorem read_only_calls (c : call) (m : manager) (w : world) :
  read_only c = true -> run c m w = Some m.
Proof. apply read_only_run. Qed.

Lemma read_only_calls_witness :
  run (CheckLowItems 5)
    (mkManager (PDict [("a", PStr "x")]) "inventory.json" []) quiet_world
  = Some (mkManager (PDict [("a", PStr "x")]) "inventory.json" []).
Proof.
  exact (read_only_calls (CheckLowItems 5)
           (mkManager (PDict [("a", PStr "x")]) "inventory.json" [])
           quiet_world eq_refl).
Defined.

(** ** How a call of [add_item] or [remove_item] can end *)

Lemma add_item_outcome (item qty : pyval) (m : manager) (w : world) :
  mutation_outcome m w (add_item item qty m w).
Proof.
  unfold add_item.
  destruct (bad_item item) eqn:Hbi; [now apply turned_down|].
  destruct (bad_qty qty) eqn:Hbq; [now apply turned_down|].
  destruct (good_item_inv item Hbi) as [name [-> _]].
  step_py. unfold add_int.
  destruct (stock_data m) as [| | | | |d] eqn:Hd; simpl;
    try apply raised_early.
  destruct (dict_lookup d name) as [v|]; simpl;
    [destruct (as_int v); simpl|];
    try apply raised_early; apply went_through.
Qed.

Lemma remove_item_outcome (item qty : pyval) (m : manager) (w : world) :
  mutation_outcome m w (remove_item item qty m w).
Proof.
  unfold remove_item.
  destruct (bad_item item) eqn:Hbi; [now apply turned_down|].
  destruct (bad_qty qty) eqn:Hbq; [now apply turned_down|].
  destruct (good_item_inv item Hbi) as [name [-> _]].
  step_py. unfold contains, getitem, lt_int, sub_int, setitem, delitem.
  destruct (stock_data m) as [| | |s|l|d] eqn:Hd; simpl;
    try apply raised_early.
  { destruct (occurs_in name s); simpl;
      [apply raised_early | now apply turned_down]. }
  { destruct (existsb _ l); simpl;
      [apply raised_early | now apply turned_down]. }
  unfold dict_mem.
  destruct (dict_lookup d name) as [v|] eqn:Hk; simpl;
    [|now apply turned_down].
  destruct (as_int v) as [z|] eqn:Hv; simpl; [|apply raised_early].
  destruct (z <? int_value qty); simpl; [now apply turned_down|].
  rewrite dict_lookup_set_same. simpl. unfold ret.
  destruct (eq_zero (PInt (z - int_value qty))); simpl;
    apply went_through.
Qed.

Lemma invoke_outcome (f : method) (item qty : pyval) (m : manager)
    (w : world) :
  mutation_outcome m w (invoke f item qty m w).
Proof.
  destruct f; [apply add_item_outcome | apply remove_item_outcome].
Qed.




(** ** Runs of calls *)



(** ** More on the items that run low *)

(** X11. Raising the threshold never takes an item off the list: every
    item [check_low_items] returns for a threshold is returned for any
    larger one. *)
Theorem check_low_items_monotone (m : manager) (w : world) (d : dict)
    (t1 t2 : Z) :
  stock_data m = PDict d ->
  int_valued d = true ->
  t1 <= t2 ->
  exists low1 low2,
    check_low_items t1 m w = Done low1 m w
    /\ check_low_items t2 m w = Done low2 m w
    /\ incl low1 low2.
Proof.
  intros Hd Hint Hle.
  exists (map fst (filter (fun kv => int_value (snd kv) <? t1) d)),
         (map fst (filter (fun kv => int_value (snd kv) <? t2) d)).
  split; [|split].
  - unfold check_low_items. step_py. rewrite Hd. simpl.
    now rewrite (low_items_filter d t1 Hint).
  - unfold check_low_items. step_py. rewrite Hd. simpl.
    now rewrite (low_items_filter d t2 Hint).
  - intros k Hk. apply in_map_iff in Hk as [[k' v] [<- Hf]].
    apply filter_In in Hf as [Hin Hlt]. apply in_map_iff.
    exists (k', v). split; auto. apply filter_In. split; auto.
    simpl in *. apply Z.ltb_lt in Hlt. apply Z.ltb_lt. lia.
Qed.

Lemma check_low_items_monotone_witness :
  exists low1 low2,
    check_low_items 4 sample_manager quiet_world
    = Done low1 sample_manager quiet_world
    /\ check_low_items 8 sample_manager quiet_world
       = Done low2 sample_manager quiet_world
    /\ incl low1 low2.
Proof.
  apply (check_low_items_monotone sample_manager quiet_world
           [("apple", PInt 7); ("grape", PInt 3)] 4 8 eq_refl eq_refl).
  lia.
Defined.

(** X12. In an inventory that satisfies its invariant every quantity is
    at least 1, so [check_low_items] returns the empty list for every
    threshold up to 1. *)
Theorem check_low_items_none_below_one (m : manager) (w : world)
    (threshold : Z) :
  inventory_ok m ->
  threshold <= 1 ->
  check_low_items threshold m w = Done [] m w.
Proof.
  intros Hok Ht. unfold inventory_ok in Hok.
  destruct (stock_data m) as [| | | | |d] eqn:Hd; try discriminate.
  unfold check_low_items. step_py. rewrite Hd. simpl.
  rewrite (low_items_filter d threshold (valid_stock_int_valued d Hok)).
  simpl in Hok. clear Hd.
  induction d as [|[k v] d IH]; simpl in *; [reflexivity|].
  apply andb_true_iff in Hok as [Hkv Hd].
  unfold valid_entry in Hkv. simpl in Hkv.
  apply andb_true_iff in Hkv as [_ Hv].
  unfold int_value at 1.
  destruct (as_int v) as [z|]; [|discriminate].
  apply Z.leb_le in Hv.
  destruct (Z.ltb_spec z threshold); [lia|]. now apply IH.
Qed.

Lemma check_low_items_none_below_one_witness :
  check_low_items 1 sample_manager quiet_world
  = Done [] sample_manager quiet_world.
Proof.
  apply (check_low_items_none_below_one sample_manager quiet_world 1
           eq_refl).
  lia.
Defined.

(** ** Inventories that a file has spoilt *)

Lemma low_items_type_error (d : dict) (threshold : Z) k v :
  In (k, v) d -> as_int v = None ->
  low_items d threshold = inl TypeError.
Proof.
  intros Hin Hv. induction d as [|[k' v'] d IH]; [contradiction|].
  simpl. unfold lt_int at 1.
  destruct Hin as [[= -> ->]|Hin].
  - now rewrite Hv.
  - rewrite (IH Hin). now destruct (as_int v').
Qed.



(** X14. [load_data] installs any JSON document, an array or a number as
    well as an object.  With an inventory that is not a dictionary,
    [get_qty] and
    [check_low_items] raise [AttributeError], so does [add_item] once its
    arguments have passed the checks, and [print_data] raises it after
    the header when the value is truthy; none of them changes the
    manager. *)
Theorem not_a_dict (m : manager) (w : world) (item qty : pyval)
    (threshold : Z) :
  (forall d, stock_data m <> PDict d) ->
  get_qty item m w = Raised AttributeError m w
  /\ check_low_items threshold m w = Raised AttributeError m w
  /\ (is_nonempty_str item = true -> is_positive_int qty = true ->
      add_item item qty m w = Raised AttributeError m w)
  /\ (truthy (stock_data m) = true ->
      print_data m w = Raised AttributeError m (emit ReportHeader w)).
Proof.
  intros Hnd.
  assert (Hget : forall k default,
             get_method (stock_data m) k default = inl AttributeError).
  { intros k default.
    destruct (stock_data m) as [| | | | |d] eqn:Hd; try reflexivity.
    now destruct (Hnd d). }
  assert (Hitems : items_method (stock_data m) = inl AttributeError).
  { destruct (stock_data m) as [| | | | |d] eqn:Hd; try reflexivity.
    now destruct (Hnd d). }
  split; [|split; [|split]].
  - unfold get_qty. step_py. now rewrite Hget.
  - unfold check_low_items. step_py. now rewrite Hitems.
  - intros Hi Hq. unfold add_item.
    rewrite bad_item_spec, Hi, bad_qty_spec, Hq. simpl.
    step_py. now rewrite Hget.
  - intros Ht. unfold print_data. step_py. rewrite Ht. simpl.
    now rewrite Hitems.
Qed.

Lemma not_a_dict_witness :
  get_qty (PStr "apple") (mkManager (PList [PInt 1]) "inventory.json" [])
    quiet_world
  = Raised AttributeError (mkManager (PList [PInt 1]) "inventory.json" [])
      quiet_world.
Proof.
  apply (not_a_dict (mkManager (PList [PInt 1]) "inventory.json" [])
           quiet_world (PStr "apple") (PInt 1) 5).
  intros d H. discriminate H.
Defined.

(** ** Loading, saving, loading again *)



(** ** The script *)

(** X16. Run where the file [inventory.json] does not exist and can be
    written, whatever else the world holds, the script of the module
    ends normally with 7 apples and 3 grapes in stock and five log
    entries, has listed the grapes alone as low, leaves the JSON text of
    that inventory in [inventory.json] and touches no other file. *)
Theorem main_first_run (w : world) :
  files w "inventory.json" = Absent ->
  write_fault w "inventory.json" = None ->
  let t := fun i => clock w (i + reads w)%nat in
  let stock := PDict [("apple", PInt 7); ("grape", PInt 3)] in
  exists w',
    main (init "inventory.json") w =
      Done tt
        (mkManager stock "inventory.json"
           [Added (t 0%nat) (PInt 10) "apple";
            Added (t 1%nat) (PInt 15) "banana";
            Removed (t 2%nat) (PInt 3) "apple";
            Removed (t 3%nat) (PInt 15) "banana";
            Added (t 4%nat) (PInt 3) "grape"]) w'
    /\ In (LowItems 5 ["grape"]) (stdout w')
    /\ files w' "inventory.json" = Text (json_dumps stock)
    /\ forall p, p <> "inventory.json" -> files w' p = files w p.
Proof.
  destruct w as [fs wf out clk rd]. simpl.
  intros Hf Hw.
  set (w := mkWorld fs wf out clk rd).
  assert (L : load_data None (init "inventory.json") w =
              Done tt (init "inventory.json")
                (emit (WarnFileNotFound "inventory.json") w)).
  { unfold load_data, bind. simpl.
    unfold try_except, bind, read_text. simpl. rewrite Hf. reflexivity. }
  eexists. split; [|split; [|split]].
  - unfold main. unfold bind at 1. rewrite L.
    cbv -[json_dumps Nat.add]. rewrite Hw. reflexivity.
  - cbn. rewrite in_app_iff. left. rewrite !in_app_iff.
    repeat (try (right; left; reflexivity); left).
  - cbn -[json_dumps]. reflexivity.
  - intros p Hp. cbv -[json_dumps Nat.add].
    match goal with
    | |- (if ?b then _ else _) = _ =>
        replace b with (p =? "inventory.json")%string by reflexivity
    end.
    destruct (String.eqb_spec p "inventory.json");
      [contradiction | reflexivity].
Qed.

Lemma main_first_run_witness :
  exists w',
    main (init "inventory.json") quiet_world =
      Done tt
        (mkManager (PDict [("apple", PInt 7); ("grape", PInt 3)])
           "inventory.json"
           [Added 0 (PInt 10) "apple"; Added 0 (PInt 15) "banana";
            Removed 0 (PInt 3) "apple"; Removed 0 (PInt 15) "banana";
            Added 0 (PInt 3) "grape"]) w'
    /\ In (LowItems 5 ["grape"]) (stdout w')
    /\ files w' "inventory.json"
       = Text (json_dumps (PDict [("apple", PInt 7); ("grape", PInt 3)]))
    /\ forall p, p <> "inventory.json" -> files w' p = files quiet_world p.
Proof.
  exact (main_first_run quiet_world eq_refl eq_refl).
Defined.
